(** * DHD Builder: a shallow embedding of [src/utils/builder.py]

    The development follows the Python module function by function.
    Python values are modelled as the code uses them:

    - a Python [str] is a list of Unicode code points ([str := list N]);
    - an exception is a value of [exn], and a call that may raise returns a
      [result];
    - a [dict] used only for membership and lookup is a [gmap]; a [dict]
      whose insertion order is observable is an association list;
    - library calls (Pillow, openpyxl, [glob], [unicodedata], the file
      system) are either written out or taken as section variables. *)

From Stdlib Require Import ZArith NArith String Ascii List Lia Bool.
From stdpp Require Import base option list gmap.

Open Scope Z_scope.

(** ** Python strings *)

Definition str := list N.

(** A literal of the source, code point by code point (ASCII literals). *)
Definition py (s : string) : str :=
  map (fun a => N.of_nat (nat_of_ascii a)) (list_ascii_of_string s).

(** ** Exceptions and results *)

Inductive exn :=
| KeyError (key : str)
| TypeError
| ValueError
| AttributeError
| OverflowError
| OSError (path : str).

Inductive result (A : Type) :=
| Ok (a : A)
| Raise (e : exn).

Arguments Ok {A} a.
Arguments Raise {A} e.

Definition bind {A B} (m : result A) (k : A -> result B) : result B :=
  match m with
  | Ok a => k a
  | Raise e => Raise e
  end.

Notation "x <- e ;; k" := (bind e (fun x => k))
  (at level 60, e at next level, right associativity).

Definition is_ok {A} (m : result A) : Prop := exists a, m = Ok a.

Definition to_option {A} (m : result A) : option A :=
  match m with
  | Ok a => Some a
  | Raise _ => None
  end.

Section DHD.

#[local] Set Default Proof Using "Type".

(** ** [slugify] (lines 21-24)

    [nfkd] is [unicodedata.normalize("NFKD", _)], a table of the Unicode
    database.  The one fact used about it is that a text of ASCII code
    points is its own normal form. *)

Variable nfkd : str -> str.

Definition is_ascii (c : N) : bool := (c <? 128)%N.

Hypothesis nfkd_ascii :
  forall t : str, forallb is_ascii t = true -> nfkd t = t.

(** [text.encode("ascii", "ignore").decode()]: code points outside ASCII
    are dropped. *)
Definition encode_ascii_ignore (t : str) : str := List.filter is_ascii t.

(** The classes of [re] on text that is ASCII already: [\w] is
    [[a-zA-Z0-9_]] and [\s] is the white space of [str.isspace]
    (U+0009-U+000D, U+001C-U+001F, U+0020). *)
Definition is_word (c : N) : bool :=
  ((48 <=? c) && (c <=? 57) || (65 <=? c) && (c <=? 90)
   || (97 <=? c) && (c <=? 122) || (c =? 95))%N.

Definition is_space (c : N) : bool :=
  ((9 <=? c) && (c <=? 13) || (28 <=? c) && (c <=? 31) || (c =? 32))%N.

Definition is_hyphen (c : N) : bool := (c =? 45)%N.

(** The class [[^\w\s-]]. *)
Definition dropped (c : N) : bool := negb (is_word c || is_space c || is_hyphen c).

(** The class [[-\s]]. *)
Definition separator (c : N) : bool := is_hyphen c || is_space c.

(** [re.sub("[cls]", repl, t)]: every code point of the class is replaced. *)
Definition re_sub_class (cls : N -> bool) (repl : str) (t : str) : str :=
  flat_map (fun c => if cls c then repl else [c]) t.

(** [re.sub("[cls]+", repl, t)]: every maximal run of the class is replaced
    once.  [in_run] tells that the previous code point was of the class. *)
Fixpoint re_sub_runs (cls : N -> bool) (repl : str) (in_run : bool) (t : str) : str :=
  match t with
  | [] => []
  | c :: rest =>
      if cls c then
        if in_run then re_sub_runs cls repl true rest
        else repl ++ re_sub_runs cls repl true rest
      else c :: re_sub_runs cls repl false rest
  end.

Fixpoint lstrip (t : str) : str :=
  match t with
  | [] => []
  | c :: rest => if is_space c then lstrip rest else t
  end.

Definition rstrip (t : str) : str := rev (lstrip (rev t)).

Definition strip (t : str) : str := rstrip (lstrip t).

(** [str.lower] on ASCII text. *)
Definition lower_char (c : N) : N :=
  if ((65 <=? c) && (c <=? 90))%N then (c + 32)%N else c.

Definition lower (t : str) : str := map lower_char t.

Definition slugify (text : str) : str :=
  let text := encode_ascii_ignore (nfkd text) in
  let text := lower (strip (re_sub_class dropped [] text)) in
  re_sub_runs separator (py "_") false text.

(** A code point of a slug: a lowercase letter, a digit or an underscore. *)
Definition is_slug_char (c : N) : bool :=
  ((48 <=? c) && (c <=? 57) || (97 <=? c) && (c <=? 122) || (c =? 95))%N.

(** *** The slug as the specification words it

    The code points the clean-up keeps; the capital letters with their
    small letters; the fields of a text between its runs of separators, and
    their joining. *)

Definition kept (c : N) : bool := is_word c || is_space c || is_hyphen c.

Definition small_letters : list (N * N) :=
  combine (py "ABCDEFGHIJKLMNOPQRSTUVWXYZ") (py "abcdefghijklmnopqrstuvwxyz").

Definition lowercase (c : N) : N :=
  match List.find (fun p => (fst p =? c)%N) small_letters with
  | Some p => snd p
  | None => c
  end.

(** The fields of [t] between its maximal runs of separators: a text that
    begins or ends with a separator has an empty first or last field. *)
Fixpoint fields (sep : N -> bool) (t : str) : list str :=
  match t with
  | [] => [[]]
  | c :: rest =>
      if sep c then
        match rest with
        | [] => [] :: fields sep rest
        | c' :: _ => if sep c' then fields sep rest else [] :: fields sep rest
        end
      else
        match fields sep rest with
        | [] => [[c]]
        | f :: fs => (c :: f) :: fs
        end
  end.

Fixpoint join (glue : str) (fs : list str) : str :=
  match fs with
  | [] => []
  | f :: rest =>
      match rest with
      | [] => f
      | _ :: _ => f ++ glue ++ join glue rest
      end
  end.

(** [slugify] in the specification's words: normalise; keep the ASCII code
    points, which drops the diacritics; of these keep the word characters,
    the white space and the hyphens; trim; put in lower case; replace every
    run of white space and hyphens by one underscore. *)
Definition slug_as_specified (text : str) : str :=
  join (py "_")
    (fields separator
       (map lowercase
          (strip (List.filter kept (List.filter is_ascii (nfkd text)))))).

(** A fragment of the normalisation table, enough to exercise [slugify]:
    U+00E9 decomposes into "e" and the combining acute accent U+0301. *)
Definition demo_nfkd (t : str) : str :=
  flat_map (fun c => if (c =? 233)%N then [101; 769]%N else [c]) t.

(** ** JSON documents (the value of [read_json], lines 16-19)

    What [json.load] returns: [None], a [bool], an [int], a [str], a [list]
    or a [dict] with [str] keys, kept as the list of its items (the keys of a
    parsed object are pairwise distinct).  Number literals with a fraction
    or an exponent (Python [float]) are outside the embedding. *)

#[local] Unset Elimination Schemes.

Inductive json :=
| JNull
| JBool (b : bool)
| JInt (z : Z)
| JStr (s : str)
| JArr (l : list json)
| JObj (o : list (str * json)).

#[local] Set Elimination Schemes.

(** [json_files p] is [json.load] of the file at [p], or what [open] or the
    parser raises. *)
Variable json_files : str -> result json.

Definition read_json (json_path : str) : result json := json_files json_path.

Fixpoint assoc (k : str) (o : list (str * json)) : option json :=
  match o with
  | [] => None
  | (k0, v) :: rest => if bool_decide (k0 = k) then Some v else assoc k rest
  end.

(** [d[k]] for a [str] key. *)
Definition py_getitem (d : json) (k : str) : result json :=
  match d with
  | JObj o =>
      match assoc k o with
      | Some v => Ok v
      | None => Raise (KeyError k)
      end
  | _ => Raise TypeError
  end.

(** [d.get(k, dflt)]. *)
Definition py_get (d : json) (k : str) (dflt : json) : result json :=
  match d with
  | JObj o => Ok (default dflt (assoc k o))
  | _ => Raise AttributeError
  end.

(** [len(x)]. *)
Definition py_len (x : json) : result nat :=
  match x with
  | JStr s => Ok (length s)
  | JArr l => Ok (length l)
  | JObj o => Ok (length o)
  | _ => Raise TypeError
  end.

(** The elements a [for] loop over [x] visits. *)
Definition py_iter (x : json) : result (list json) :=
  match x with
  | JStr s => Ok (map (fun c => JStr [c]) s)
  | JArr l => Ok l
  | JObj o => Ok (map (fun kv => JStr (fst kv)) o)
  | _ => Raise TypeError
  end.

(** Truth value of [x], as [x or ""] tests it. *)
Definition py_truthy (x : json) : bool :=
  match x with
  | JNull => false
  | JBool b => b
  | JInt z => negb (z =? 0)
  | JStr s => negb (bool_decide (s = []))
  | JArr l => negb (bool_decide (length l = O))
  | JObj o => negb (bool_decide (length o = O))
  end.

Definition is_None (x : json) : bool :=
  match x with
  | JNull => true
  | _ => false
  end.

(** ** [create_dhd_excel] (lines 26-73)

    A worksheet is the finite map of its cells, keyed by (row, column).
    [bind_value v] is openpyxl's assignment to [Cell.value]: the stored
    value, or the exception for a value a cell cannot hold.  [workbooks p]
    is the active sheet of [openpyxl.load_workbook(p)]; the template's
    cells are ordinary (unmerged) cells. *)

Variable bind_value : json -> result json.
Variable workbooks : str -> result (gmap (nat * nat) json).

(** [ws[coordinate] = value]. *)
Definition ws_setitem (ws : gmap (nat * nat) json) (rc : nat * nat) (value : json)
    : result (gmap (nat * nat) json) :=
  v <- bind_value value ;;
  Ok (<[rc := v]> ws).

(** [ws.cell(row, column, value)]: the cell is created empty when the sheet
    does not have it, and assigned only when [value is not None]. *)
Definition ws_cell (ws : gmap (nat * nat) json) (row column : nat) (value : json)
    : result (gmap (nat * nat) json) :=
  let ws' := match ws !! (row, column) with
             | Some _ => ws
             | None => <[(row, column) := JNull]> ws
             end in
  if is_None value then Ok ws'
  else v <- bind_value value ;; Ok (<[(row, column) := v]> ws').

(** [units_map], in insertion order, with "E5" written (row, column). *)
Definition units_map : list (str * (nat * nat)) :=
  [ (py "length_unit", (5, 5));
    (py "depth_unit", (5, 6));
    (py "inner_diameter_unit", (5, 7));
    (py "outer_diameter_unit", (5, 8)) ]%nat.

(** Lines 46-47. *)
Fixpoint fill_units (data : json) (units : list (str * (nat * nat)))
    (ws : gmap (nat * nat) json) : result (gmap (nat * nat) json) :=
  match units with
  | [] => Ok ws
  | (key, cell) :: rest =>
      v <- py_get data key (JStr []) ;;
      ws <- ws_setitem ws cell (if py_truthy v then v else JStr []) ;;
      fill_units data rest ws
  end.

Definition start_row : nat := 6.

(** The body of the loop of lines 51-58 for the component of index [i]. *)
Definition fill_component (i : nat) (comp : json) (ws : gmap (nat * nat) json)
    : result (gmap (nat * nat) json) :=
  let r := (start_row + i)%nat in
  v <- py_get comp (py "item_id") JNull ;;
  ws <- ws_cell ws r 3 v ;;
  v <- py_get comp (py "name") JNull ;;
  ws <- ws_cell ws r 4 v ;;
  v <- py_get comp (py "length") JNull ;;
  ws <- ws_cell ws r 5 v ;;
  v <- py_get comp (py "depth") JNull ;;
  ws <- ws_cell ws r 6 v ;;
  v <- py_get comp (py "inner_diameter") JNull ;;
  ws <- ws_cell ws r 7 v ;;
  v <- py_get comp (py "outer_diameter") JNull ;;
  ws_cell ws r 8 v.

Fixpoint fill_components (i : nat) (comps : list json) (ws : gmap (nat * nat) json)
    : result (gmap (nat * nat) json) :=
  match comps with
  | [] => Ok ws
  | comp :: rest =>
      ws <- fill_component i comp ws ;;
      fill_components (S i) rest ws
  end.

(** Lines 60-63. *)
Definition write_end_of_tailpipe (data : json) (ws : gmap (nat * nat) json)
    : result (gmap (nat * nat) json) :=
  comps <- py_getitem data (py "components") ;;
  n <- py_len comps ;;
  let end_row := (start_row + n)%nat in
  ws <- ws_cell ws (end_row + 1) 4 (JStr (py "END OF TAILPIPE")) ;;
  v <- py_getitem data (py "end_of_tailpipe_depth") ;;
  ws_cell ws (end_row + 1) 6 v.

(** Lines 66-68. *)
Definition write_end_of_tailpipe_depth (data : json) (ws : gmap (nat * nat) json)
    : result (gmap (nat * nat) json) :=
  comps <- py_getitem data (py "components") ;;
  n <- py_len comps ;;
  let last_depth_row := (start_row + n)%nat in
  v <- py_get data (py "end_of_tailpipe_depth") JNull ;;
  ws_cell ws (last_depth_row + 1) 6 v.

(** Lines 28-58: everything before the end-of-tailpipe rows.  The value is
    the output path and the sheet filled so far. *)
Definition fill_template (json_path template_path : str)
    : result (json * str * gmap (nat * nat) json) :=
  data <- read_json json_path ;;
  well_name <- py_getitem data (py "well_name") ;;
  slug <- match well_name with
          | JStr text => Ok (slugify text)
          | _ => Raise TypeError
          end ;;
  let output_path := py "/content/DHD_" ++ slug ++ py ".xlsx" in
  ws <- workbooks template_path ;;
  v <- py_get data (py "well_name") (JStr []) ;;
  ws <- ws_setitem ws (2, 4)%nat v ;;
  ws <- fill_units data units_map ws ;;
  comps <- py_get data (py "components") (JArr []) ;;
  rows <- py_iter comps ;;
  ws <- fill_components 0 rows ws ;;
  Ok (data, output_path, ws).

(** The value is what [wb.save] is called with: the output path, which the
    function also returns, and the filled sheet. *)
Definition create_dhd_excel (json_path template_path : str)
    : result (str * gmap (nat * nat) json) :=
  filled <- fill_template json_path template_path ;;
  let '(data, output_path, ws) := filled in
  ws <- write_end_of_tailpipe data ws ;;
  ws <- write_end_of_tailpipe_depth data ws ;;
  Ok (output_path, ws).

(** [create_dhd_excel] with lines 66-68 left out: the end-of-tailpipe depth
    is written once. *)
Definition create_dhd_excel_single_write (json_path template_path : str)
    : result (str * gmap (nat * nat) json) :=
  filled <- fill_template json_path template_path ;;
  let '(data, output_path, ws) := filled in
  ws <- write_end_of_tailpipe data ws ;;
  Ok (output_path, ws).

(** An extracted report with one component. *)
Definition demo_document : json :=
  JObj [ (py "well_name", JStr (py "Acracia # 1"));
         (py "depth_unit", JStr (py "m"));
         (py "components",
          JArr [ JObj [ (py "item_id", JStr (py "1")); (py "name", JStr (py "Packer"));
                        (py "depth", JInt 1480) ] ]);
         (py "end_of_tailpipe_depth", JInt 1500) ].

(** *** Vocabulary of the filler's properties *)

(** The columns of a component row and the fields written to them. *)
Definition component_columns : list (nat * str) :=
  [ (3, py "item_id"); (4, py "name"); (5, py "length"); (6, py "depth");
    (7, py "inner_diameter"); (8, py "outer_diameter") ]%nat.

(** Writing the fields [cols] of [comp] into row [r], column by column. *)
Fixpoint write_fields (r : nat) (comp : json) (cols : list (nat * str))
    (ws : gmap (nat * nat) json) : result (gmap (nat * nat) json) :=
  match cols with
  | [] => Ok ws
  | (c, field) :: rest =>
      v <- py_get comp field JNull ;;
      ws <- ws_cell ws r c v ;;
      write_fields r comp rest ws
  end.

(** The cells [create_dhd_excel] writes to for a document of [n]
    components: D2, E5 to H5, columns 3 to 8 of the [n] rows from
    [start_row], and columns 4 and 6 of row [start_row + n + 1]. *)
Definition written (n : nat) (rc : nat * nat) : bool :=
  (bool_decide (rc = (2, 4))
   || (fst rc =? 5) && (5 <=? snd rc) && (snd rc <=? 8)
   || (start_row <=? fst rc) && (fst rc <? start_row + n)
      && (3 <=? snd rc) && (snd rc <=? 8)
   || (fst rc =? start_row + n + 1) && ((snd rc =? 4) || (snd rc =? 6)))%nat.

(** What a cell holds after [ws.cell(row, column, value)], given what it
    held before: [None] leaves the content, a value replaces it. *)
Definition cell_after (before : option json) (value : json) : result json :=
  if is_None value then Ok (default JNull before) else bind_value value.

(** ** [make_component_dict] (lines 75-91)

    The returned dict keeps its insertion order, so it is an association
    list: a new key goes to the end, a key already there keeps its place and
    its first spelling and takes the new value. *)

(** What a dict compares of a key: [True] and [1] are one key. *)
Inductive hkey :=
| HNone
| HNum (z : Z)
| HStr (s : str).

#[global] Instance hkey_eq_dec : EqDecision hkey.
Proof. solve_decision. Defined.

(** [None] for a value that cannot be hashed (a list or a dict). *)
Definition hash_key (k : json) : option hkey :=
  match k with
  | JNull => Some HNone
  | JBool b => Some (HNum (if b then 1 else 0))
  | JInt z => Some (HNum z)
  | JStr s => Some (HStr s)
  | JArr _ | JObj _ => None
  end.

Definition hashable (k : json) : bool :=
  match hash_key k with
  | Some _ => true
  | None => false
  end.

Definition key_eqb (a b : json) : bool :=
  match hash_key a, hash_key b with
  | Some x, Some y => bool_decide (x = y)
  | _, _ => false
  end.

Fixpoint dict_set (d : list (json * json)) (k v : json) : list (json * json) :=
  match d with
  | [] => [(k, v)]
  | (k0, v0) :: rest =>
      if key_eqb k0 k then (k0, v) :: rest else (k0, v0) :: dict_set rest k v
  end.

Fixpoint dict_get (d : list (json * json)) (k : json) : option json :=
  match d with
  | [] => None
  | (k0, v0) :: rest => if key_eqb k0 k then Some v0 else dict_get rest k
  end.

(** [d[k] = v] . *)
Definition dict_setitem (d : list (json * json)) (k v : json)
    : result (list (json * json)) :=
  if hashable k then Ok (dict_set d k v) else Raise TypeError.

(** What the generator [pairs] yields for one row, if anything (lines
    85-87): the condition is evaluated first, then the pair. *)
Definition component_pair (keep_none : bool) (row : json)
    : result (option (json * json)) :=
  keep <- (if keep_none then Ok true
           else item_id <- py_getitem row (py "item_id") ;;
                Ok (negb (is_None item_id))) ;;
  if (keep : bool) then
    item_id <- py_getitem row (py "item_id") ;;
    mapped <- py_getitem row (py "mapped_name") ;;
    Ok (Some (item_id, mapped))
  else Ok None.

(** The dict comprehension of line 91, consuming the generator row by row. *)
Fixpoint build_dict (keep_none : bool) (rows : list json) (d : list (json * json))
    : result (list (json * json)) :=
  match rows with
  | [] => Ok d
  | row :: rest =>
      p <- component_pair keep_none row ;;
      d' <- match p with
            | Some (item_id, mapped) => dict_setitem d item_id mapped
            | None => Ok d
            end ;;
      build_dict keep_none rest d'
  end.

Definition make_component_dict (json_path : str) (keep_none : bool)
    : result (list (json * json)) :=
  data <- read_json json_path ;;
  comps <- py_getitem data (py "components") ;;
  rows <- py_iter comps ;;
  build_dict keep_none rows [].

(** *** Vocabulary of the mapper's properties *)

(** [row] is a component record with the given [item_id] and
    [mapped_name]. *)
Definition is_record (row : json) (p : json * json) : Prop :=
  py_getitem row (py "item_id") = Ok (fst p)
  /\ py_getitem row (py "mapped_name") = Ok (snd p).

(** The records the mapper retains. *)
Definition kept_pairs (keep_none : bool) (pairs : list (json * json))
    : list (json * json) :=
  if keep_none then pairs
  else List.filter (fun p => negb (is_None (fst p))) pairs.

(** The dict [d] after the pairs are assigned to it in turn. *)
Definition dict_of (d : list (json * json)) (pairs : list (json * json))
    : list (json * json) :=
  fold_left (fun d p => dict_set d (fst p) (snd p)) pairs d.

(** The value of the last pair whose key is [k]. *)
Definition last_value (k : json) (pairs : list (json * json)) : option json :=
  fold_left (fun acc p => if key_eqb (fst p) k then Some (snd p) else acc) pairs None.

Definition add_key (ks : list json) (k : json) : list json :=
  if existsb (fun k0 => key_eqb k0 k) ks then ks else ks ++ [k].

(** The keys in the order of their first occurrence. *)
Definition first_keys (ks : list json) : list json := fold_left add_key ks [].

Fixpoint keys_distinct (ks : list json) : bool :=
  match ks with
  | [] => true
  | k :: rest => forallb (fun k' => negb (key_eqb k k')) rest && keys_distinct rest
  end.

(** The document of the scenario: two records, the second without
    [item_id]. *)
Definition demo_components : json :=
  JObj [ (py "components",
          JArr [ JObj [ (py "item_id", JStr (py "1")); (py "mapped_name", JStr (py "Bit")) ];
                 JObj [ (py "item_id", JNull); (py "mapped_name", JStr (py "Sub")) ] ]) ].

(** Lines 219-220 of [convert_DHD_report_to_excel]:
    [d = make_component_dict(json_path)], with [keep_none] left at its
    default, then [component_output = list(d.values())]. *)
Definition component_output (json_path : str) : result (list json) :=
  d <- make_component_dict json_path true ;;
  Ok (map snd d).

(** A document whose second record has no [item_id] and no
    [mapped_name]. *)
Definition demo_incomplete : json :=
  JObj [ (py "components",
          JArr [ JObj [ (py "item_id", JStr (py "1")); (py "mapped_name", JStr (py "Bit")) ];
                 JObj [ (py "item_id", JNull) ];
                 JObj [ (py "item_id", JStr (py "1")); (py "mapped_name", JStr (py "Sub")) ] ]) ].

(** ** [official_component_dict] (lines 93-107)

    Paths are POSIX paths.  [scandir d] lists directory [d]: the names of
    its entries, each with whether it is a sub-directory, in the order the
    system gives them; [None] when [d] cannot be listed.  [fnmatch] is
    [fnmatch.fnmatch], of which the pattern ["*"] matches every name.
    [glob_dirs] gives the directories matched by a directory part that holds
    glob magic itself. *)

Variable scandir : str -> option (list (str * bool)).
Variable fnmatch : str -> str -> bool.
Variable glob_dirs : str -> list str.

Hypothesis fnmatch_star : forall name : str, fnmatch name (py "*") = true.

Definition is_slash (c : N) : bool := (c =? 47)%N.
Definition is_dot (c : N) : bool := (c =? 46)%N.

(** [p.rfind(c)]: the index of the last [c] of [p], or -1. *)
Fixpoint rfind (c : N) (p : str) : Z :=
  match p with
  | [] => -1
  | a :: rest =>
      let i := rfind c rest in
      if 0 <=? i then i + 1 else if (a =? c)%N then 0 else -1
  end.

Fixpoint lstrip_slash (p : str) : str :=
  match p with
  | [] => []
  | c :: rest => if is_slash c then lstrip_slash rest else p
  end.

(** [p.rstrip("/")]. *)
Definition rstrip_slash (p : str) : str := rev (lstrip_slash (rev p)).

Definition ends_with_slash (p : str) : bool :=
  match rev p with
  | c :: _ => is_slash c
  | [] => false
  end.

Definition starts_with_slash (p : str) : bool :=
  match p with
  | c :: _ => is_slash c
  | [] => false
  end.

(** [os.path.join(a, b)]. *)
Definition os_path_join (a b : str) : str :=
  if starts_with_slash b then b
  else if bool_decide (a = []) || ends_with_slash a then a ++ b
  else a ++ py "/" ++ b.

(** [os.path.split(p)]. *)
Definition os_path_split (p : str) : str * str :=
  let i := Z.to_nat (rfind 47 p + 1) in
  let head := take i p in
  let tail := drop i p in
  let head := if negb (bool_decide (head = [])) && negb (forallb is_slash head)
              then rstrip_slash head else head in
  (head, tail).

(** [os.path.basename(p)]. *)
Definition os_path_basename (p : str) : str :=
  drop (Z.to_nat (rfind 47 p + 1)) p.

(** [os.path.splitext(p)]: the last dot splits, unless only dots stand
    between the last slash and it. *)
Definition os_path_splitext (p : str) : str * str :=
  let sepIndex := rfind 47 p in
  let dotIndex := rfind 46 p in
  if dotIndex >? sepIndex then
    let leading := drop (Z.to_nat (sepIndex + 1)) (take (Z.to_nat dotIndex) p) in
    if forallb is_dot leading then (p, [])
    else (take (Z.to_nat dotIndex) p, drop (Z.to_nat dotIndex) p)
  else (p, []).

(** [glob.has_magic]. *)
Definition has_magic (p : str) : bool :=
  existsb (fun c => (c =? 42) || (c =? 63) || (c =? 91))%N p.

(** [glob._ishidden]. *)
Definition ishidden (name : str) : bool :=
  match name with
  | c :: _ => is_dot c
  | [] => false
  end.

(** [glob._listdir]: the names of the directory, none when it cannot be
    listed; the empty name stands for the current directory. *)
Definition listdir (dirname : str) : list str :=
  match scandir (if bool_decide (dirname = []) then py "." else dirname) with
  | Some entries => map fst entries
  | None => []
  end.

(** [glob._glob1]. *)
Definition glob1 (dirname pattern : str) : list str :=
  let names := listdir dirname in
  let names := if ishidden pattern then names
               else List.filter (fun n => negb (ishidden n)) names in
  List.filter (fun n => fnmatch n pattern) names.

(** [glob.glob(pathname)] for a pathname whose last component holds a
    wildcard, as every pathname built at line 105 does. *)
Definition glob_glob (pathname : str) : list str :=
  let '(dirname, basename) := os_path_split pathname in
  if bool_decide (dirname = []) then glob1 [] basename
  else
    let dirs := if negb (bool_decide (dirname = pathname)) && has_magic dirname
                then glob_dirs dirname else [dirname] in
    flat_map (fun d => map (os_path_join d) (glob1 d basename)) dirs.

Definition official_component_dict (DHD_folder : str) : gmap str str :=
  fold_left
    (fun image_map fp => <[fst (os_path_splitext (os_path_basename fp)) := fp]> image_map)
    (glob_glob (os_path_join DHD_folder (py "*")))
    ∅.

(** *** Vocabulary of the registry's properties *)

(** The directory that is listed for [DHD_folder]. *)
Definition registry_dir (DHD_folder : str) : str :=
  fst (os_path_split (os_path_join DHD_folder (py "*"))).

(** The names of the listed directory that do not start with a dot. *)
Definition visible_names (DHD_folder : str) : list str :=
  List.filter (fun n => negb (ishidden n)) (listdir (registry_dir DHD_folder)).

(** The key of a name: the name without its extension. *)
Definition stem (name : str) : str := fst (os_path_splitext name).

Definition slash_free (name : str) : bool := forallb (fun c => negb (is_slash c)) name.

(** The registry as the specification words it: every file directly inside
    the directory has its entry, from its stem to its full path. *)
Definition covers_every_file (DHD_folder : str) : Prop :=
  forall entries name,
    scandir DHD_folder = Some entries ->
    In (name, false) entries ->
    official_component_dict DHD_folder !! stem name
    = Some (os_path_join DHD_folder name).

(** A directory "imgs" with two images of one base name, a hidden file and
    a sub-directory. *)
Definition demo_scandir (d : str) : option (list (str * bool)) :=
  if bool_decide (d = py "imgs")
  then Some [ (py "packer.png", false); (py "packer.jpg", false);
              (py ".cache.png", false); (py "old", true) ]
  else None.

(** ** Pillow images

    [pixels] is the decoded raster content of an image; the code never
    inspects it.  [convertible m] tells that Pillow has a conversion from
    mode [m] to RGBA, and [convert_data m d] is then the content of
    [Image.convert("RGBA")] applied to content [d] of mode [m];
    [image_files p] is what [Image.open(p)] decodes, [None] when the path
    cannot be opened. *)

Variable pixels : Type.
Variable convert_data : str -> pixels -> pixels.
Variable convertible : str -> bool.

Record image := Image {
  mode : str;
  width : N;
  height : N;
  data : pixels
}.

Variable image_files : str -> option image.

Definition Image_open (p : str) : result image :=
  match image_files p with
  | Some im => Ok im
  | None => Raise (OSError p)
  end.

Definition copy (im : image) : image := im.

(** The image [convert("RGBA")] returns for an image whose mode can be
    converted. *)
Definition convert_RGBA (im : image) : image :=
  {| mode := py "RGBA";
     width := width im;
     height := height im;
     data := convert_data (mode im) (data im) |}.

(** [im.convert("RGBA")]: Pillow raises [ValueError] for a mode it has no
    conversion from. *)
Definition convert (im : image) : result image :=
  if convertible (mode im) then Ok (convert_RGBA im) else Raise ValueError.

(** A canvas is a blank transparent image of a given size together with the
    [alpha_composite] calls made on it, oldest first. *)
Record canvas := Canvas {
  cw : Z;
  ch : Z;
  layers : list (image * (Z * Z))
}.

(** [Image.new("RGBA", (w, h), (255, 255, 255, 0))]: Pillow refuses a
    negative size with [ValueError], and a size that is no C [int] with
    [OverflowError]; the allocation of the raster itself is taken to
    succeed. *)
Definition Image_new (w h : Z) : result canvas :=
  if (w <? 0) || (h <? 0) then Raise ValueError
  else if (2 ^ 31 <=? w) || (2 ^ 31 <=? h) then Raise OverflowError
  else Ok {| cw := w; ch := h; layers := [] |}.

Definition alpha_composite (cv : canvas) (im : image) (dest : Z * Z) : canvas :=
  {| cw := cw cv; ch := ch cv; layers := layers cv ++ [(im, dest)] |}.

(** [canvas.save(path)]: Pillow raises [ValueError] ("cannot write empty
    image") for an image without pixels, that is of width or height 0; the
    path is taken to name a file that Pillow can write. *)
Definition save (cv : canvas) (path : str) : result unit :=
  if (cw cv =? 0) || (ch cv =? 0) then Raise ValueError else Ok tt.

(** ** [stack_dhd] *)

(** An entry of [mapping]: a path ([isinstance(src, str)]) or an image. *)
Inductive source :=
| SrcPath (p : str)
| SrcImage (im : image).

(** An element of [items]: [('gap', gap_pixels)] or [('img', img)]. *)
Inductive item :=
| gap (h : Z)
| img (im : image).

(** The three accumulators of pass 1. *)
Record measure := Measure {
  items : list item;
  max_w : Z;
  total_h : Z
}.

(** Lines 138-140: [Image.open(src) if isinstance(src, str) else src.copy()],
    then [convert("RGBA")]. *)
Definition load (src : source) : result image :=
  im <- match src with
        | SrcPath p => Image_open p
        | SrcImage im => Ok (copy im)
        end ;;
  convert im.

(** One iteration of the loop of pass 1 (lines 127-143). *)
Definition pass1_step (mapping : gmap str source) (gap_pixels : Z)
    (skip_missing : bool) (st : measure) (label : option str) : result measure :=
  match label with
  | None =>
      Ok {| items := items st ++ [gap gap_pixels];
            max_w := max_w st;
            total_h := total_h st + gap_pixels |}
  | Some name =>
      match mapping !! name with
      | None => if skip_missing then Ok st else Raise (KeyError name)
      | Some src =>
          im <- load src ;;
          Ok {| items := items st ++ [img im];
                max_w := Z.max (max_w st) (Z.of_N (width im));
                total_h := total_h st + Z.of_N (height im) |}
      end
  end.

Fixpoint pass1 (mapping : gmap str source) (gap_pixels : Z) (skip_missing : bool)
    (order : list (option str)) (st : measure) : result measure :=
  match order with
  | [] => Ok st
  | label :: rest =>
      st' <- pass1_step mapping gap_pixels skip_missing st label ;;
      pass1 mapping gap_pixels skip_missing rest st'
  end.

(** Pass 2 (lines 149-159): the cursor [y] and the canvas. *)
Fixpoint pass2 (maxw : Z) (its : list item) (y : Z) (cv : canvas) : canvas :=
  match its with
  | [] => cv
  | gap h :: rest => pass2 maxw rest (y + h) cv
  | img im :: rest =>
      let x := (maxw - Z.of_N (width im)) / 2 in
      pass2 maxw rest (y + Z.of_N (height im)) (alpha_composite cv im (x, y))
  end.

Definition measure0 : measure := {| items := []; max_w := 1; total_h := 0 |}.

(** Lines 146-162.  The value is what [canvas.save] has written: the output
    path and the painted canvas; encoding the file is left to Pillow. *)
Definition stack_dhd (order : list (option str)) (mapping : gmap str source)
    (dhd_image_output_path : str) (gap_pixels : Z) (skip_missing : bool)
    : result (str * canvas) :=
  m <- pass1 mapping gap_pixels skip_missing order measure0 ;;
  cv <- Image_new (max_w m) (total_h m) ;;
  let painted := pass2 (max_w m) (items m) 0 cv in
  saved <- save painted dhd_image_output_path ;;
  Ok (dhd_image_output_path, painted).

(** The signature's defaults (line 109); [None] is an argument left out. *)
Definition stack_dhd_call (order : list (option str)) (mapping : gmap str source)
    (dhd_image_output_path : option str) (gap_pixels : option Z)
    (skip_missing : option bool) : result (str * canvas) :=
  stack_dhd order mapping
    (default (py "stack.png") dhd_image_output_path)
    (default 6 gap_pixels)
    (default true skip_missing).

(** Line 226 of [convert_DHD_report_to_excel]:
    [stack_dhd(component_output, image_map, dhd_image_path, gap_pixels=8)]. *)
Definition pipeline_stack (component_output : list (option str))
    (image_map : gmap str source) (dhd_image_path : str) : result (str * canvas) :=
  stack_dhd_call component_output image_map (Some dhd_image_path) (Some 8) None.

(** Lines 225-226 of [convert_DHD_report_to_excel]: the registry of
    [dhd_folder], whose values are paths, is the mapping of the compositor. *)
Definition pipeline_images (component_output : list (option str))
    (dhd_folder dhd_image_path : str) : result (str * canvas) :=
  let image_map := official_component_dict dhd_folder in
  pipeline_stack component_output (SrcPath <$> image_map) dhd_image_path.

(** *** Small instances used to exercise the results *)

Definition demo_image (w h : N) (d : pixels) : image :=
  {| mode := py "RGB"; width := w; height := h; data := d |}.

(** A file system without any image file. *)
Definition no_files : str -> option image := fun _ => None.

(** *** Vocabulary of the compositor's properties *)

(** The image a label resolves to: a name of [mapping] whose source loads. *)
Definition resolve (mapping : gmap str source) (label : option str) : option image :=
  match label with
  | None => None
  | Some name =>
      match mapping !! name with
      | None => None
      | Some src => to_option (load src)
      end
  end.

Definition resolved_images (mapping : gmap str source) (order : list (option str))
    : list image :=
  omap (resolve mapping) order.

(** Number of spacer sentinels ([None]) of an order. *)
Fixpoint spacers (order : list (option str)) : Z :=
  match order with
  | [] => 0
  | None :: rest => 1 + spacers rest
  | Some _ :: rest => spacers rest
  end.

(** Number of component names of an order. *)
Fixpoint names (order : list (option str)) : nat :=
  match order with
  | [] => O
  | None :: rest => names rest
  | Some _ :: rest => S (names rest)
  end.

Definition sum_heights (ims : list image) : Z :=
  foldr (fun im acc => Z.of_N (height im) + acc) 0 ims.

Definition max_width (ims : list image) : Z :=
  foldr (fun im acc => Z.max (Z.of_N (width im)) acc) 0 ims.

(** The width as the specification words it: the largest image width, or 1
    when no image is resolved. *)
Definition width_as_specified (ims : list image) : Z :=
  match ims with
  | [] => 1
  | _ :: _ => max_width ims
  end.

Definition item_height (it : item) : Z :=
  match it with
  | gap h => h
  | img im => Z.of_N (height im)
  end.

(** A layer lies within a canvas of width [w] and height [h]. *)
Definition within (w h : Z) (layer : image * (Z * Z)) : Prop :=
  0 <= fst (snd layer)
  /\ fst (snd layer) + Z.of_N (width (fst layer)) <= w
  /\ 0 <= snd (snd layer)
  /\ snd (snd layer) + Z.of_N (height (fst layer)) <= h.

(** Every name of the order is a key of the mapping. *)
Definition all_present (mapping : gmap str source) (order : list (option str)) : Prop :=
  forall name, In (Some name) order -> is_Some (mapping !! name).

(** Every name of the order that is a key of the mapping has a source that
    opens. *)
Definition all_load (mapping : gmap str source) (order : list (option str)) : Prop :=
  forall name src, In (Some name) order -> mapping !! name = Some src -> is_ok (load src).

(** *** Vocabulary of the compositor's layout *)

(** The unit pass 1 records for a label, if any. *)
Definition unit_of (mapping : gmap str source) (gap_pixels : Z) (label : option str)
    : option item :=
  match label with
  | None => Some (gap gap_pixels)
  | Some _ =>
      match resolve mapping label with
      | Some im => Some (img im)
      | None => None
      end
  end.

Definition images_of (its : list item) : list image :=
  omap (fun it => match it with
                  | gap _ => None
                  | img im => Some im
                  end) its.

(** The layers painted for the units [its] by a cursor starting at [y], on
    a canvas of width [w]. *)
Fixpoint paint (w : Z) (its : list item) (y : Z) : list (image * (Z * Z)) :=
  match its with
  | [] => []
  | gap h :: rest => paint w rest (y + h)
  | img im :: rest =>
      (im, ((w - Z.of_N (width im)) / 2, y)) :: paint w rest (y + Z.of_N (height im))
  end.

(** A layer is horizontally centred on a canvas of width [w]. *)
Definition centered (w : Z) (layer : image * (Z * Z)) : Prop :=
  fst (snd layer) = (w - Z.of_N (width (fst layer))) / 2.

(** The layers follow one another downwards from [y] without overlap. *)
Fixpoint stacked (y : Z) (ls : list (image * (Z * Z))) : Prop :=
  match ls with
  | [] => True
  | layer :: rest =>
      y <= snd (snd layer)
      /\ stacked (snd (snd layer) + Z.of_N (height (fst layer))) rest
  end.

(** The order without the names that are not keys of the mapping. *)
Definition present_only (mapping : gmap str source) (order : list (option str))
    : list (option str) :=
  List.filter (fun label => match label with
                            | None => true
                            | Some name =>
                                match mapping !! name with
                                | Some _ => true
                                | None => false
                                end
                            end) order.

(** A file system whose only image file is "a.png", 3 pixels wide and 5
    high. *)
Definition demo_files (d : pixels) (p : str) : option image :=
  if bool_decide (p = py "a.png") then Some (demo_image 3 5 d) else None.

(** Automation ([tauto], [lia], [auto]) looks at the whole context; a proof
    that uses it first drops the parameters of the section its statement
    does not mention. *)
Ltac forget_unused := repeat match goal with x : _ |- _ => clear x end.

(** ** Results *)

Lemma bind_Ok_inv {A B} (m : result A) (k : A -> result B) (b : B) :
  bind m k = Ok b -> exists a, m = Ok a /\ k a = Ok b.
Proof.
  destruct m as [a|e]; simpl; intros H; [eauto | discriminate].
Qed.

Lemma to_option_Ok {A} (m : result A) (a : A) :
  m = Ok a -> to_option m = Some a.
Proof. intros ->; reflexivity. Qed.

(** ** [slugify] *)

Ltac bool_to_prop :=
  repeat rewrite ?negb_false_iff, ?negb_true_iff, ?orb_true_iff, ?orb_false_iff,
    ?andb_true_iff, ?andb_false_iff, ?N.leb_le, ?N.leb_gt, ?N.eqb_eq, ?N.eqb_neq,
    ?N.ltb_lt, ?N.ltb_ge.

Lemma lower_char_kept (c : N) :
  dropped c = false -> separator (lower_char c) = false ->
  is_slug_char (lower_char c) = true.
Proof.
  unfold dropped, separator, is_slug_char, lower_char, is_word, is_space, is_hyphen.
  destruct ((65 <=? c) && (c <=? 90))%N eqn:E; revert E; bool_to_prop; lia.
Qed.

Lemma slug_char_facts (c : N) :
  is_slug_char c = true ->
  is_ascii c = true /\ dropped c = false /\ is_space c = false
  /\ separator c = false /\ lower_char c = c.
Proof.
  unfold dropped, separator, is_slug_char, lower_char, is_word, is_space,
    is_hyphen, is_ascii.
  destruct ((65 <=? c) && (c <=? 90))%N eqn:E; revert E; bool_to_prop;
    intros E H; repeat split; revert E H; lia.
Qed.

Lemma separator_facts (c : N) :
  separator c = true ->
  is_ascii c = true /\ dropped c = false /\ lower_char c = c.
Proof.
  unfold dropped, separator, lower_char, is_word, is_space, is_hyphen, is_ascii.
  destruct ((65 <=? c) && (c <=? 90))%N eqn:E; revert E; bool_to_prop;
    intros E H; repeat split; revert E H; lia.
Qed.

Lemma letter_facts (b : N) :
  ((65 <=? b) && (b <=? 90) || (97 <=? b) && (b <=? 122))%N = true ->
  is_ascii b = true /\ dropped b = false /\ is_space b = false
  /\ separator (lower_char b) = false.
Proof.
  unfold dropped, separator, lower_char, is_word, is_space, is_hyphen, is_ascii.
  destruct ((65 <=? b) && (b <=? 90))%N eqn:E; revert E; bool_to_prop;
    intros E H; repeat split; revert E H; lia.
Qed.

Lemma In_lstrip c t : In c (lstrip t) -> In c t.
Proof.
  forget_unused.
  induction t as [|a t IH]; simpl; [tauto|].
  destruct (is_space a); [right; apply IH; assumption | tauto].
Qed.

Lemma In_strip c t : In c (strip t) -> In c t.
Proof.
  unfold strip, rstrip. intros H.
  apply in_rev, In_lstrip in H. apply in_rev in H. apply In_lstrip, H.
Qed.

Lemma In_re_sub_class_drop cls c t :
  In c (re_sub_class cls [] t) -> In c t /\ cls c = false.
Proof.
  forget_unused.
  unfold re_sub_class. rewrite in_flat_map. intros (a & Ha & Hc).
  destruct (cls a) eqn:E; simpl in Hc; [tauto|].
  destruct Hc as [<-|[]]. split; assumption.
Qed.

Lemma In_re_sub_runs cls repl c t : forall b,
  In c (re_sub_runs cls repl b t) -> In c repl \/ (In c t /\ cls c = false).
Proof.
  forget_unused.
  induction t as [|a t IH]; intros b; simpl; [tauto|].
  destruct (cls a) eqn:E.
  - destruct b.
    + intros H; apply IH in H; tauto.
    + rewrite in_app_iff. intros [H|H]; [tauto | apply IH in H; tauto].
  - intros [<-|H]; [tauto | apply IH in H; tauto].
Qed.

(** Every code point of a slug is a lowercase letter, a digit or an
    underscore. *)
Lemma slugify_chars text c : In c (slugify text) -> is_slug_char c = true.
Proof.
  unfold slugify. intros H.
  apply In_re_sub_runs in H as [H | [H Hsep]].
  - destruct H as [<-|[]]. reflexivity.
  - unfold lower in H. apply in_map_iff in H as (c0 & <- & H).
    apply In_strip, In_re_sub_class_drop in H as [_ Hd].
    apply lower_char_kept; assumption.
Qed.

Lemma filter_all {A} (f : A -> bool) (l : list A) :
  forallb f l = true -> List.filter f l = l.
Proof.
  induction l as [|a l IH]; simpl; [reflexivity|].
  intros H; apply andb_true_iff in H as [-> H]. f_equal; apply IH, H.
Qed.

Lemma filter_none {A} (f : A -> bool) (l : list A) :
  forallb (fun a => negb (f a)) l = true -> List.filter f l = [].
Proof.
  induction l as [|a l IH]; simpl; [reflexivity|].
  intros H; apply andb_true_iff in H as [Ha H].
  apply negb_true_iff in Ha; rewrite Ha. apply IH, H.
Qed.

Lemma re_sub_class_none cls repl t :
  forallb (fun c => negb (cls c)) t = true -> re_sub_class cls repl t = t.
Proof.
  induction t as [|a t IH]; simpl; [reflexivity|].
  intros H; apply andb_true_iff in H as [Ha H].
  apply negb_true_iff in Ha; rewrite Ha. simpl. f_equal. apply IH, H.
Qed.

Lemma lower_fixed t :
  forallb (fun c => (lower_char c =? c)%N) t = true -> lower t = t.
Proof.
  induction t as [|a t IH]; simpl; [reflexivity|].
  intros H; apply andb_true_iff in H as [Ha H].
  apply N.eqb_eq in Ha. rewrite Ha. f_equal. apply IH, H.
Qed.

Lemma lstrip_fixed c t : is_space c = false -> lstrip (c :: t) = c :: t.
Proof. intros H; simpl; rewrite H; reflexivity. Qed.

Lemma strip_fixed c t z :
  is_space c = false -> is_space z = false ->
  strip (c :: t ++ [z]) = c :: t ++ [z].
Proof.
  intros Hc Hz. unfold strip, rstrip. rewrite (lstrip_fixed _ _ Hc).
  assert (E : rev (c :: t ++ [z]) = z :: rev (c :: t)).
  { change (c :: t ++ [z]) with ((c :: t) ++ [z]).
    rewrite rev_app_distr. reflexivity. }
  rewrite E, (lstrip_fixed _ _ Hz), <- E. apply rev_involutive.
Qed.

Lemma re_sub_runs_prefix cls repl u rest :
  forallb (fun c => negb (cls c)) u = true ->
  re_sub_runs cls repl false (u ++ rest) = u ++ re_sub_runs cls repl false rest.
Proof.
  induction u as [|a u IH]; simpl; [reflexivity|].
  intros H; apply andb_true_iff in H as [Ha H].
  apply negb_true_iff in Ha; rewrite Ha. f_equal. apply IH, H.
Qed.

Lemma re_sub_runs_in_run cls repl sep rest :
  forallb cls sep = true ->
  re_sub_runs cls repl true (sep ++ rest) = re_sub_runs cls repl true rest.
Proof.
  induction sep as [|a sep IH]; simpl; [reflexivity|].
  intros H; apply andb_true_iff in H as [-> H]. apply IH, H.
Qed.

Lemma re_sub_runs_clean cls repl b c t :
  forallb (fun c => negb (cls c)) (c :: t) = true ->
  re_sub_runs cls repl b (c :: t) = c :: t.
Proof.
  intros H. simpl in H. apply andb_true_iff in H as [Ha H].
  simpl. apply negb_true_iff in Ha; rewrite Ha. f_equal.
  rewrite <- (app_nil_r t) at 1. rewrite re_sub_runs_prefix by exact H.
  simpl. apply app_nil_r.
Qed.

(** A run of hyphens and white space between two words becomes one
    underscore. *)
Lemma slugify_collapse u sep v :
  u <> [] -> sep <> [] -> v <> [] ->
  forallb is_slug_char u = true ->
  forallb separator sep = true ->
  forallb is_slug_char v = true ->
  slugify (u ++ sep ++ v) = u ++ py "_" ++ v.
Proof using nfkd_ascii.
  clear - nfkd_ascii.
  intros Hu Hs Hv Fu Fs Fv.
  assert (All : forall c, In c (u ++ sep ++ v) ->
            is_ascii c = true /\ dropped c = false /\ lower_char c = c).
  { intros c Hc. rewrite !in_app_iff in Hc.
    rewrite forallb_forall in Fu, Fs, Fv.
    destruct Hc as [Hc|[Hc|Hc]].
    - apply Fu, slug_char_facts in Hc; tauto.
    - apply Fs, separator_facts in Hc; tauto.
    - apply Fv, slug_char_facts in Hc; tauto. }
  unfold slugify.
  rewrite nfkd_ascii by (apply forallb_forall; intros c Hc; apply All, Hc).
  unfold encode_ascii_ignore.
  rewrite filter_all by (apply forallb_forall; intros c Hc; apply All, Hc).
  rewrite re_sub_class_none
    by (apply forallb_forall; intros c Hc; apply negb_true_iff, All, Hc).
  destruct u as [|a u]; [congruence|].
  destruct (exists_last Hv) as (v' & z & ->).
  assert (Ha : is_space a = false).
  { simpl in Fu. apply andb_true_iff in Fu as [Fa _].
    apply slug_char_facts in Fa; tauto. }
  assert (Hz : is_space z = false).
  { rewrite forallb_app in Fv. apply andb_true_iff in Fv as [_ Fz].
    simpl in Fz. apply andb_true_iff in Fz as [Fz _].
    apply slug_char_facts in Fz; tauto. }
  replace ((a :: u) ++ sep ++ v' ++ [z]) with (a :: (u ++ sep ++ v') ++ [z])
    by (simpl; rewrite <- !app_assoc; reflexivity).
  rewrite (strip_fixed _ _ _ Ha Hz).
  replace (a :: (u ++ sep ++ v') ++ [z]) with ((a :: u) ++ sep ++ v' ++ [z])
    by (simpl; rewrite <- !app_assoc; reflexivity).
  rewrite lower_fixed
    by (apply forallb_forall; intros c Hc; apply N.eqb_eq, All, Hc).
  rewrite re_sub_runs_prefix.
  2:{ apply forallb_forall. intros c Hc. rewrite forallb_forall in Fu.
      apply negb_true_iff. apply Fu, slug_char_facts in Hc; tauto. }
  f_equal.
  destruct sep as [|s0 sep]; [congruence|].
  simpl in Fs. apply andb_true_iff in Fs as [Fs0 Fs].
  simpl app at 1. cbn [re_sub_runs]. rewrite Fs0.
  rewrite re_sub_runs_in_run by exact Fs.
  f_equal.
  destruct (v' ++ [z]) as [|c0 w] eqn:E; [destruct v'; discriminate|].
  apply re_sub_runs_clean.
  apply forallb_forall. intros c Hc. rewrite forallb_forall in Fv.
  apply negb_true_iff. apply Fv, slug_char_facts in Hc; tauto.
Qed.

(** A letter followed by combining marks, as the normal form of an accented
    letter is, leaves the lowercased letter alone. *)
Lemma slugify_diacritic text b marks :
  nfkd text = b :: marks ->
  ((65 <=? b) && (b <=? 90) || (97 <=? b) && (b <=? 122))%N = true ->
  forallb (fun c => negb (is_ascii c)) marks = true ->
  slugify text = [lower_char b].
Proof.
  intros Hn Hb Hm. unfold slugify. rewrite Hn.
  destruct (letter_facts b Hb) as (F1 & F2 & F3 & F4).
  assert (E1 : encode_ascii_ignore (b :: marks) = [b]).
  { unfold encode_ascii_ignore. simpl. rewrite F1, (filter_none _ _ Hm).
    reflexivity. }
  assert (E2 : re_sub_class dropped [] [b] = [b]).
  { unfold re_sub_class. simpl. rewrite F2. reflexivity. }
  assert (E3 : strip [b] = [b]).
  { unfold strip, rstrip. simpl. rewrite F3. simpl. rewrite F3. reflexivity. }
  rewrite E1, E2, E3. simpl. rewrite F4. reflexivity.
Qed.

Lemma small_letters_table :
  small_letters
  = [ (65, 97); (66, 98); (67, 99); (68, 100); (69, 101); (70, 102); (71, 103);
      (72, 104); (73, 105); (74, 106); (75, 107); (76, 108); (77, 109);
      (78, 110); (79, 111); (80, 112); (81, 113); (82, 114); (83, 115);
      (84, 116); (85, 117); (86, 118); (87, 119); (88, 120); (89, 121);
      (90, 122) ]%N.
Proof. reflexivity. Qed.

(** [str.lower] sends each capital letter to its small letter and leaves
    every other ASCII code point alone. *)
Lemma lower_char_lowercase (c : N) : lower_char c = lowercase c.
Proof.
  unfold lowercase. rewrite small_letters_table. cbn [List.find fst snd].
  repeat match goal with
         | |- context [N.eqb ?k c] =>
             destruct (N.eqb_spec k c) as [<-|]; [reflexivity|]
         end.
  unfold lower_char.
  destruct (N.leb_spec 65 c); [|reflexivity].
  destruct (N.leb_spec c 90); [lia | reflexivity].
Qed.

Lemma re_sub_class_dropped t : re_sub_class dropped [] t = List.filter kept t.
Proof.
  unfold re_sub_class, dropped, kept.
  induction t as [|c t IH]; simpl; [reflexivity|].
  destruct (is_word c || is_space c || is_hyphen c); simpl; rewrite IH; reflexivity.
Qed.

Lemma fields_cons sep t : exists f fs, fields sep t = f :: fs.
Proof.
  induction t as [|c t (f & fs & E)]; simpl; [eexists _, _; reflexivity|].
  destruct (sep c).
  - destruct t as [|c' t]; [eexists _, _; reflexivity|].
    destruct (sep c'); [exists f, fs; exact E | eexists _, _; reflexivity].
  - rewrite E. eexists _, _; reflexivity.
Qed.

Lemma join_cons glue c f fs : join glue ((c :: f) :: fs) = c :: join glue (f :: fs).
Proof. destruct fs; reflexivity. Qed.

(** Replacing each run of a class is splitting at the runs and joining the
    fields with the replacement. *)
Lemma re_sub_runs_fields sep glue t :
  re_sub_runs sep glue false t = join glue (fields sep t).
Proof.
  induction t as [|c rest IH]; [reflexivity|].
  cbn [re_sub_runs fields]. destruct (sep c) eqn:Ec.
  - destruct rest as [|c' rest']; [simpl; rewrite app_nil_r; reflexivity|].
    destruct (sep c') eqn:Ec'.
    + rewrite <- IH. cbn [re_sub_runs]. rewrite Ec'. reflexivity.
    + destruct (fields_cons sep (c' :: rest')) as (f & fs & E).
      rewrite E in *.
      change (join glue ([] :: f :: fs)) with (glue ++ join glue (f :: fs)).
      rewrite <- IH. cbn [re_sub_runs]. rewrite Ec'. reflexivity.
  - destruct (fields_cons sep rest) as (f & fs & E). rewrite E in *.
    rewrite join_cons, IH. reflexivity.
Qed.

Lemma slugify_as_specified text : slugify text = slug_as_specified text.
Proof.
  unfold slugify, slug_as_specified, encode_ascii_ignore, lower.
  rewrite re_sub_runs_fields, re_sub_class_dropped.
  do 2 f_equal. apply map_ext, lower_char_lowercase.
Qed.

(** C8. [slugify] is the slug the specification describes: the ASCII code
    points of the normal form (the diacritics go), of these the word
    characters, white space and hyphens, trimmed, in lower case, every run
    of white space and hyphens replaced by one underscore.  It returns only
    lowercase letters, digits and underscores; a letter carrying diacritics
    is reduced to its lowercased base letter; a run of white space and
    hyphens between two words becomes a single underscore; and
    [slugify("Acracia # 1")] is ["acracia_1"]. *)
Theorem slugify_spec :
  (forall text, slugify text = slug_as_specified text)
  /\ (forall t, lower t = map lowercase t)
  /\ (forall t, re_sub_runs separator (py "_") false t
                = join (py "_") (fields separator t))
  /\ slugify (py "Acracia # 1") = py "acracia_1"
  /\ (forall text c, In c (slugify text) -> is_slug_char c = true)
  /\ (forall text b marks,
        nfkd text = b :: marks ->
        ((65 <=? b) && (b <=? 90) || (97 <=? b) && (b <=? 122))%N = true ->
        forallb (fun c => negb (is_ascii c)) marks = true ->
        slugify text = [lower_char b])
  /\ (forall u sep v,
        u <> [] -> sep <> [] -> v <> [] ->
        forallb is_slug_char u = true ->
        forallb separator sep = true ->
        forallb is_slug_char v = true ->
        slugify (u ++ sep ++ v) = u ++ py "_" ++ v).
Proof using nfkd_ascii.
  split; [apply slugify_as_specified|].
  split; [intros t; apply map_ext, lower_char_lowercase|].
  split; [intros t; apply re_sub_runs_fields|].
  split; [|split; [|split]].
  - unfold slugify. rewrite nfkd_ascii by reflexivity. reflexivity.
  - apply slugify_chars.
  - apply slugify_diacritic.
  - apply slugify_collapse.
Qed.

(** ** [create_dhd_excel] *)

Lemma py_get_of_getitem d k v dflt :
  py_getitem d k = Ok v -> py_get d k dflt = Ok v.
Proof.
  destruct d; simpl; try discriminate.
  destruct (assoc k o); [|discriminate].
  intros H; injection H as ->; reflexivity.
Qed.

(** Writing a value into the cell it was just written to changes nothing. *)
Lemma ws_cell_idempotent ws row column value ws1 :
  ws_cell ws row column value = Ok ws1 ->
  ws_cell ws1 row column value = Ok ws1.
Proof.
  unfold ws_cell.
  set (ws' := match ws !! (row, column) with
              | Some _ => ws
              | None => <[(row, column) := JNull]> ws
              end).
  assert (Hc : is_Some (ws' !! (row, column))).
  { subst ws'. destruct (ws !! (row, column)) eqn:E.
    - rewrite E; eexists; reflexivity.
    - rewrite lookup_insert_eq; eexists; reflexivity. }
  destruct (is_None value).
  - intros H; injection H as <-. destruct Hc as [x ->]. reflexivity.
  - intros H. apply bind_Ok_inv in H as (v & Hv & H). injection H as <-.
    rewrite lookup_insert_eq, Hv. simpl. rewrite insert_insert_eq. reflexivity.
Qed.

Lemma write_end_of_tailpipe_depth_idempotent data ws ws1 :
  write_end_of_tailpipe data ws = Ok ws1 ->
  write_end_of_tailpipe_depth data ws1 = Ok ws1.
Proof.
  unfold write_end_of_tailpipe, write_end_of_tailpipe_depth. intros H.
  apply bind_Ok_inv in H as (comps & Hc & H). rewrite Hc. simpl.
  apply bind_Ok_inv in H as (n & Hn & H). rewrite Hn. simpl.
  apply bind_Ok_inv in H as (ws' & _ & H).
  apply bind_Ok_inv in H as (v & Hv & H).
  rewrite (py_get_of_getitem _ _ _ JNull Hv). simpl.
  apply ws_cell_idempotent in H. exact H.
Qed.

(** C10. [create_dhd_excel] writes the end-of-tailpipe depth twice, both
    times to the cell of row [start_row + len(components) + 1], column 6, and
    with the same value when the key is present; the second write leaves the
    sheet as the first one made it, so the workbook saved is the one saved
    when the write is performed once. *)
Theorem create_dhd_excel_duplicate_write :
  (forall data ws comps n v,
     py_getitem data (py "components") = Ok comps ->
     py_len comps = Ok n ->
     py_getitem data (py "end_of_tailpipe_depth") = Ok v ->
     write_end_of_tailpipe data ws =
       (ws' <- ws_cell ws (start_row + n + 1) 4 (JStr (py "END OF TAILPIPE")) ;;
        ws_cell ws' (start_row + n + 1) 6 v)
     /\ write_end_of_tailpipe_depth data ws = ws_cell ws (start_row + n + 1) 6 v)
  /\ (forall data ws ws1,
        write_end_of_tailpipe data ws = Ok ws1 ->
        write_end_of_tailpipe_depth data ws1 = Ok ws1)
  /\ (forall json_path template_path,
        create_dhd_excel json_path template_path =
        create_dhd_excel_single_write json_path template_path).
Proof.
  split; [|split].
  - intros data ws comps n v Hc Hn Hv.
    unfold write_end_of_tailpipe, write_end_of_tailpipe_depth.
    rewrite Hc, (py_get_of_getitem _ _ _ JNull Hv). cbn [bind].
    rewrite Hn. cbn [bind].
    split; [|reflexivity].
    destruct (ws_cell ws (start_row + n + 1) 4 (JStr (py "END OF TAILPIPE")));
      cbn [bind]; [rewrite Hv|]; reflexivity.
  - apply write_end_of_tailpipe_depth_idempotent.
  - intros json_path template_path.
    unfold create_dhd_excel, create_dhd_excel_single_write.
    destruct (fill_template json_path template_path) as [[[data out] ws]|e];
      simpl; [|reflexivity].
    destruct (write_end_of_tailpipe data ws) as [ws1|e] eqn:E; simpl;
      [|reflexivity].
    rewrite (write_end_of_tailpipe_depth_idempotent _ _ _ E). reflexivity.
Qed.

(** ** [make_component_dict] *)

Lemma key_eqb_sym a b : key_eqb a b = key_eqb b a.
Proof.
  unfold key_eqb. destruct (hash_key a), (hash_key b); try reflexivity.
  apply bool_decide_ext. split; congruence.
Qed.

Lemma key_eqb_trans a b c :
  key_eqb a b = true -> key_eqb a c = key_eqb b c.
Proof.
  unfold key_eqb. destruct (hash_key a), (hash_key b); try discriminate.
  intros H. apply bool_decide_eq_true in H. subst. reflexivity.
Qed.

Lemma key_eqb_None k : key_eqb k JNull = true -> k = JNull.
Proof.
  unfold key_eqb. destruct k; simpl; try discriminate; try reflexivity;
    intros H; apply bool_decide_eq_true in H; discriminate.
Qed.

Lemma dict_get_set d k v k' :
  dict_get (dict_set d k v) k' = if key_eqb k k' then Some v else dict_get d k'.
Proof.
  induction d as [|[k0 v0] d IH]; simpl; [reflexivity|].
  destruct (key_eqb k0 k) eqn:E; simpl.
  - rewrite (key_eqb_trans _ _ k' E). destruct (key_eqb k k'); reflexivity.
  - rewrite IH. destruct (key_eqb k0 k') eqn:E0; [|reflexivity].
    destruct (key_eqb k k') eqn:E1; [|reflexivity].
    rewrite (key_eqb_trans _ _ k E0), key_eqb_sym, E1 in E. discriminate.
Qed.

Lemma keys_dict_set d k v :
  map fst (dict_set d k v) = add_key (map fst d) k.
Proof.
  unfold add_key. induction d as [|[k0 v0] d IH]; simpl; [reflexivity|].
  destruct (key_eqb k0 k); simpl; [reflexivity|].
  rewrite IH. destruct (existsb (fun k1 => key_eqb k1 k) (map fst d)); reflexivity.
Qed.

Lemma dict_set_fresh d k v :
  forallb (fun k0 => negb (key_eqb k0 k)) (map fst d) = true ->
  dict_set d k v = d ++ [(k, v)].
Proof.
  induction d as [|[k0 v0] d IH]; simpl; [reflexivity|].
  intros H. apply andb_true_iff in H as [H0 H].
  apply negb_true_iff in H0. rewrite H0. f_equal. apply IH, H.
Qed.

Lemma dict_of_get pairs : forall d k,
  dict_get (dict_of d pairs) k =
  fold_left (fun acc p => if key_eqb (fst p) k then Some (snd p) else acc)
    pairs (dict_get d k).
Proof.
  induction pairs as [|[k0 v0] pairs IH]; intros d k; simpl; [reflexivity|].
  unfold dict_of in *. simpl. rewrite IH, dict_get_set. reflexivity.
Qed.

Lemma dict_of_keys pairs : forall d,
  map fst (dict_of d pairs) = fold_left add_key (map fst pairs) (map fst d).
Proof.
  induction pairs as [|[k0 v0] pairs IH]; intros d; simpl; [reflexivity|].
  unfold dict_of in *. simpl. rewrite IH, keys_dict_set. reflexivity.
Qed.

Lemma dict_of_distinct pairs : forall d,
  keys_distinct (map fst pairs) = true ->
  (forall k0 p, In k0 (map fst d) -> In p pairs -> key_eqb k0 (fst p) = false) ->
  dict_of d pairs = d ++ pairs.
Proof.
  induction pairs as [|[k v] pairs IH]; intros d Hd Hdisj; simpl.
  - symmetry; apply app_nil_r.
  - simpl in Hd. apply andb_true_iff in Hd as [Hk Hd].
    unfold dict_of in *. simpl.
    rewrite dict_set_fresh.
    + rewrite IH; [rewrite <- app_assoc; reflexivity | exact Hd |].
      intros k0 p Hk0 Hp. rewrite map_app, in_app_iff in Hk0.
      destruct Hk0 as [Hk0|[<-|[]]].
      * apply Hdisj; [exact Hk0 | right; exact Hp].
      * rewrite forallb_forall in Hk. apply negb_true_iff, Hk.
        apply in_map. exact Hp.
    + apply forallb_forall. intros k0 Hk0. apply negb_true_iff.
      apply (Hdisj k0 (k, v)); [exact Hk0 | left; reflexivity].
Qed.

Lemma last_value_not_None pairs : forall acc,
  acc = None ->
  fold_left (fun (acc : option json) (p : json * json) =>
               if key_eqb (fst p) JNull then Some (snd p) else acc)
    (List.filter (fun p => negb (is_None (fst p))) pairs) acc = None.
Proof.
  induction pairs as [|[k v] pairs IH]; intros acc ->; simpl; [reflexivity|].
  destruct (is_None k) eqn:E; simpl; [apply IH; reflexivity|].
  destruct (key_eqb k JNull) eqn:E1.
  - apply key_eqb_None in E1. subst. discriminate.
  - apply IH; reflexivity.
Qed.

Lemma component_pair_record keep_none row p :
  is_record row p ->
  component_pair keep_none row =
  Ok (if keep_none || negb (is_None (fst p)) then Some p else None).
Proof.
  intros [Hi Hm]. unfold component_pair. destruct p as [i m]; simpl in *.
  destruct keep_none; simpl.
  - rewrite Hi, Hm. reflexivity.
  - rewrite Hi. simpl. destruct (is_None i); simpl; [reflexivity|].
    rewrite Hm. reflexivity.
Qed.

Lemma build_dict_records keep_none rows pairs :
  Forall2 is_record rows pairs ->
  forallb (fun p => hashable (fst p)) pairs = true ->
  forall d, build_dict keep_none rows d = Ok (dict_of d (kept_pairs keep_none pairs)).
Proof.
  induction 1 as [|row p rows pairs Hr _ IH]; intros Hh d; [destruct keep_none; reflexivity|].
  simpl in Hh. apply andb_true_iff in Hh as [Hp Hh].
  simpl. rewrite (component_pair_record keep_none _ _ Hr). simpl.
  destruct p as [i m]; simpl in *.
  unfold kept_pairs in *.
  destruct keep_none; simpl.
  - unfold dict_setitem. rewrite Hp. simpl. rewrite IH by exact Hh. reflexivity.
  - destruct (is_None i); simpl.
    + rewrite IH by exact Hh. reflexivity.
    + unfold dict_setitem. rewrite Hp. simpl. rewrite IH by exact Hh. reflexivity.
Qed.

(** C7. On a list of component records, [make_component_dict] returns a
    dict that sends every [item_id] to the [mapped_name] of the last record
    carrying it, whose keys stand in the order of their first record, and
    which is the list of (item_id, mapped_name) pairs itself when no
    [item_id] repeats; with [keep_none=False] the records whose [item_id] is
    [None] are left out, and the two records of the scenario give
    [{"1": "Bit"}]. *)
Theorem make_component_dict_spec :
  (forall json_path keep_none data rows pairs,
     read_json json_path = Ok data ->
     py_getitem data (py "components") = Ok (JArr rows) ->
     Forall2 is_record rows pairs ->
     forallb (fun p => hashable (fst p)) pairs = true ->
     exists d,
       make_component_dict json_path keep_none = Ok d
       /\ (forall k, dict_get d k = last_value k (kept_pairs keep_none pairs))
       /\ map fst d = first_keys (map fst (kept_pairs keep_none pairs))
       /\ (keys_distinct (map fst (kept_pairs keep_none pairs)) = true ->
           d = kept_pairs keep_none pairs)
       /\ (keep_none = false -> dict_get d JNull = None))
  /\ (forall json_path,
        read_json json_path = Ok demo_components ->
        make_component_dict json_path false = Ok [(JStr (py "1"), JStr (py "Bit"))]).
Proof.
  split.
  - intros json_path keep_none data rows pairs Hd Hc Hr Hh.
    exists (dict_of [] (kept_pairs keep_none pairs)).
    split; [|split; [|split; [|split]]].
    + unfold make_component_dict. rewrite Hd. simpl. rewrite Hc. simpl.
      apply build_dict_records; assumption.
    + intros k. rewrite dict_of_get. reflexivity.
    + rewrite dict_of_keys. reflexivity.
    + intros Hk. rewrite dict_of_distinct; [reflexivity | exact Hk |].
      intros k0 p [].
    + intros ->. rewrite dict_of_get. apply last_value_not_None. reflexivity.
  - intros json_path Hd. unfold make_component_dict. rewrite Hd. reflexivity.
Qed.

(** ** [official_component_dict] *)

Lemma rfind_absent c t :
  forallb (fun a => negb (a =? c)%N) t = true -> rfind c t = -1.
Proof.
  induction t as [|a t IH]; simpl; [reflexivity|].
  intros H. apply andb_true_iff in H as [Ha H].
  rewrite (IH H). simpl. apply negb_true_iff in Ha. rewrite Ha. reflexivity.
Qed.

Lemma rfind_last c y t :
  forallb (fun a => negb (a =? c)%N) t = true ->
  rfind c (y ++ c :: t) = Z.of_nat (length y).
Proof.
  intros H. induction y as [|a y IH]; simpl.
  - rewrite (rfind_absent _ _ H). simpl. rewrite N.eqb_refl. reflexivity.
  - rewrite IH. destruct (0 <=? Z.of_nat (length y)) eqn:E; [lia|].
    apply Z.leb_gt in E. lia.
Qed.

Lemma slash_free_rfind name : slash_free name = true -> rfind 47 name = -1.
Proof. intros H. apply rfind_absent. exact H. Qed.

Lemma slash_free_start name : slash_free name = true -> starts_with_slash name = false.
Proof.
  destruct name as [|c name]; simpl; [reflexivity|].
  intros H. apply andb_true_iff in H as [H _]. apply negb_true_iff, H.
Qed.

Lemma ends_with_slash_inv d : ends_with_slash d = true -> exists y, d = y ++ [47%N].
Proof.
  unfold ends_with_slash. destruct (rev d) as [|c r] eqn:E; [discriminate|].
  intros H. apply N.eqb_eq in H. subst c. exists (rev r).
  rewrite <- (rev_involutive d), E. reflexivity.
Qed.

Lemma basename_after_slash y name :
  slash_free name = true -> os_path_basename (y ++ 47%N :: name) = name.
Proof.
  intros H. unfold os_path_basename. rewrite (rfind_last 47 y name H).
  replace (Z.to_nat (Z.of_nat (length y) + 1)) with (length (y ++ [47%N]))
    by (rewrite length_app; simpl; lia).
  change (y ++ 47%N :: name) with (y ++ [47%N] ++ name).
  rewrite app_assoc. apply drop_app_length.
Qed.

Lemma basename_join d name :
  slash_free name = true -> os_path_basename (os_path_join d name) = name.
Proof.
  intros H. unfold os_path_join. rewrite (slash_free_start _ H).
  destruct (bool_decide (d = [])) eqn:E; simpl.
  - apply bool_decide_eq_true in E. subst d. simpl.
    unfold os_path_basename. rewrite (slash_free_rfind _ H). reflexivity.
  - destruct (ends_with_slash d) eqn:E1.
    + apply ends_with_slash_inv in E1 as [y ->]. rewrite <- app_assoc.
      apply basename_after_slash, H.
    + apply basename_after_slash, H.
Qed.

(** What precedes the wildcard in the pattern of line 105. *)
Lemma join_star folder :
  os_path_join folder (py "*") =
  (if bool_decide (folder = []) || ends_with_slash folder then folder
   else folder ++ py "/") ++ py "*".
Proof.
  unfold os_path_join. simpl starts_with_slash.
  destruct (bool_decide (folder = []) || ends_with_slash folder);
    [reflexivity | rewrite <- app_assoc; reflexivity].
Qed.

Lemma split_star x :
  x = [] \/ (exists y, x = y ++ [47%N]) ->
  os_path_split (x ++ py "*") =
  (if negb (bool_decide (x = [])) && negb (forallb is_slash x)
   then rstrip_slash x else x, py "*").
Proof.
  intros [-> | [y ->]]; [reflexivity|].
  unfold os_path_split.
  assert (E : rfind 47 ((y ++ [47%N]) ++ py "*") = Z.of_nat (length y)).
  { rewrite <- app_assoc. apply (rfind_last 47 y (py "*")). reflexivity. }
  rewrite E.
  replace (Z.to_nat (Z.of_nat (length y) + 1)) with (length (y ++ [47%N]))
    by (rewrite length_app; simpl; lia).
  rewrite take_app_length, drop_app_length. reflexivity.
Qed.

Lemma star_prefix_shape folder :
  let x := if bool_decide (folder = []) || ends_with_slash folder then folder
           else folder ++ py "/" in
  x = [] \/ (exists y, x = y ++ [47%N]).
Proof.
  simpl. destruct (bool_decide (folder = [])) eqn:E; simpl.
  - left. apply bool_decide_eq_true in E. exact E.
  - right. destruct (ends_with_slash folder) eqn:E1.
    + apply ends_with_slash_inv, E1.
    + exists folder. reflexivity.
Qed.

Lemma split_join_star folder :
  os_path_split (os_path_join folder (py "*")) = (registry_dir folder, py "*").
Proof.
  unfold registry_dir. rewrite join_star, split_star by apply star_prefix_shape.
  reflexivity.
Qed.

Lemma In_lstrip_slash c t : In c (lstrip_slash t) -> In c t.
Proof.
  forget_unused.
  induction t as [|a t IH]; simpl; [tauto|].
  destruct (is_slash a); [right; apply IH; assumption | tauto].
Qed.

Lemma In_rstrip_slash c t : In c (rstrip_slash t) -> In c t.
Proof.
  unfold rstrip_slash. intros H. apply in_rev, In_lstrip_slash in H.
  apply in_rev, H.
Qed.

Lemma In_split_head c x :
  In c (if negb (bool_decide (x = [])) && negb (forallb is_slash x)
        then rstrip_slash x else x) -> In c x.
Proof.
  forget_unused.
  destruct (negb (bool_decide (x = [])) && negb (forallb is_slash x));
    [apply In_rstrip_slash | tauto].
Qed.

Lemma registry_dir_chars folder c :
  In c (registry_dir folder) -> In c folder \/ c = 47%N.
Proof.
  forget_unused.
  unfold registry_dir. rewrite join_star, split_star by apply star_prefix_shape.
  intros H. apply In_split_head in H.
  destruct (bool_decide (folder = []) || ends_with_slash folder); [tauto|].
  rewrite in_app_iff in H. simpl in H. intuition.
Qed.

Lemma registry_dir_magic folder :
  has_magic folder = false -> has_magic (registry_dir folder) = false.
Proof.
  unfold has_magic. intros H.
  destruct (existsb _ (registry_dir folder)) eqn:E; [|reflexivity].
  apply existsb_exists in E as (c & Hc & Hm).
  apply registry_dir_chars in Hc as [Hc | ->]; [|discriminate].
  assert (X : existsb (fun c => (c =? 42) || (c =? 63) || (c =? 91))%N folder = true).
  { apply existsb_exists. exists c. split; assumption. }
  congruence.
Qed.

Lemma join_empty b : os_path_join [] b = b.
Proof. unfold os_path_join. destruct (starts_with_slash b); reflexivity. Qed.

Lemma glob1_star d :
  glob1 d (py "*") = List.filter (fun n => negb (ishidden n)) (listdir d).
Proof using fnmatch_star.
  unfold glob1. simpl ishidden. apply filter_all.
  apply forallb_forall. intros n _. apply fnmatch_star.
Qed.

(** The paths [glob] returns for a folder free of glob magic: the visible
    names of the listed directory, each joined to it, in listing order. *)
Lemma glob_glob_folder folder :
  has_magic folder = false ->
  glob_glob (os_path_join folder (py "*")) =
  map (os_path_join (registry_dir folder)) (visible_names folder).
Proof using fnmatch_star.
  intros Hm. unfold glob_glob. rewrite split_join_star.
  unfold visible_names. rewrite <- !glob1_star.
  destruct (bool_decide (registry_dir folder = [])) eqn:E.
  - apply bool_decide_eq_true in E. rewrite E.
    rewrite <- (map_id (glob1 [] (py "*"))) at 1.
    apply map_ext. intros b. symmetry. apply join_empty.
  - rewrite (registry_dir_magic _ Hm), andb_false_r. simpl.
    apply app_nil_r.
Qed.

Section Fold_insert.

Context {A : Type} (key : A -> str) (val : A -> str).

Let step (m : gmap str str) (a : A) : gmap str str := <[key a := val a]> m.

Lemma fold_insert_lookup l : forall m0 k v,
  fold_left step l m0 !! k = Some v <->
  (exists l1 a l2, l = l1 ++ a :: l2 /\ key a = k /\ val a = v
                   /\ Forall (fun b => key b <> k) l2)
  \/ (Forall (fun b => key b <> k) l /\ m0 !! k = Some v).
Proof.
  induction l as [|a l IH]; intros m0 k v; simpl.
  - split.
    + intros H. right. split; [constructor | exact H].
    + intros [(l1 & a & l2 & H & _) | [_ H]]; [destruct l1; discriminate | exact H].
  - rewrite IH. unfold step. split.
    + intros [(l1 & b & l2 & -> & Hk & Hv & Hf) | [Hf H]].
      * left. exists (a :: l1), b, l2. repeat split; assumption.
      * destruct (decide (key a = k)) as [Ek|Ek].
        -- rewrite Ek, lookup_insert_eq in H. injection H as <-.
           left. exists [], a, l. repeat split; assumption.
        -- rewrite lookup_insert_ne in H by exact Ek.
           right. split; [constructor; assumption | exact H].
    + intros [(l1 & b & l2 & E & Hk & Hv & Hf) | [Hf H]].
      * destruct l1 as [|a' l1]; simpl in E; injection E as -> ->.
        -- right. split; [exact Hf|]. rewrite Hk, lookup_insert_eq, Hv. reflexivity.
        -- left. exists l1, b, l2. repeat split; assumption.
      * apply Forall_cons in Hf as [Ha Hf]. right. split; [exact Hf|].
        rewrite lookup_insert_ne by exact Ha. exact H.
Qed.

Lemma fold_insert_some l : forall m0 k,
  is_Some (m0 !! k) \/ (exists b, In b l /\ key b = k) ->
  is_Some (fold_left step l m0 !! k).
Proof.
  induction l as [|a l IH]; intros m0 k H; simpl.
  - destruct H as [H | (b & [] & _)]. exact H.
  - apply IH. unfold step.
    destruct (decide (key a = k)) as [Ek|Ek].
    + left. rewrite Ek, lookup_insert_eq. eexists; reflexivity.
    + rewrite lookup_insert_ne by exact Ek.
      destruct H as [H | (b & [Hb|Hb] & Hk)].
      * left; exact H.
      * subst b. contradiction.
      * right. exists b. split; assumption.
Qed.

Lemma fold_insert_size l : forall m0,
  NoDup (map key l) ->
  (forall a, In a l -> m0 !! key a = None) ->
  size (fold_left step l m0) = (length l + size m0)%nat.
Proof.
  induction l as [|a l IH]; intros m0 Hnd Hfresh; simpl; [reflexivity|].
  simpl in Hnd. apply NoDup_cons in Hnd as [Ha Hnd].
  rewrite IH.
  - unfold step. rewrite map_size_insert_None by (apply Hfresh; left; reflexivity).
    lia.
  - exact Hnd.
  - intros b Hb. unfold step. rewrite lookup_insert_ne.
    + apply Hfresh. right. exact Hb.
    + intros E. apply Ha. rewrite E. apply list_elem_of_In, in_map, Hb.
Qed.

End Fold_insert.

Lemma fold_left_map_list {A B C} (f : A -> C -> A) (g : B -> C) (l : list B) : forall a,
  fold_left f (map g l) a = fold_left (fun a b => f a (g b)) l a.
Proof.
  induction l as [|b l IH]; intros a; simpl; [reflexivity | apply IH].
Qed.

(** The registry as a fold over the visible names. *)
Lemma official_component_dict_fold folder :
  has_magic folder = false ->
  forallb slash_free (visible_names folder) = true ->
  official_component_dict folder =
  fold_left (fun m name => <[stem name := os_path_join (registry_dir folder) name]> m)
    (visible_names folder) ∅.
Proof using fnmatch_star.
  intros Hm Hs. unfold official_component_dict.
  rewrite (glob_glob_folder _ Hm), fold_left_map_list.
  generalize (∅ : gmap str str).
  induction (visible_names folder) as [|name names IH]; intros m0; simpl;
    [reflexivity|].
  simpl in Hs. apply andb_true_iff in Hs as [Hn Hs].
  rewrite (basename_join _ _ Hn). apply IH, Hs.
Qed.

Lemma rstrip_slash_snoc y c :
  is_slash c = false -> rstrip_slash ((y ++ [c]) ++ py "/") = y ++ [c].
Proof.
  intros Hc. unfold rstrip_slash. rewrite !rev_app_distr. simpl.
  rewrite Hc. change (c :: rev y) with (rev [c] ++ rev y).
  rewrite <- rev_app_distr. apply rev_involutive.
Qed.

Lemma snoc_not_nil (y : list N) (c : N) (D : Decision (y ++ [c] = [])) :
  @bool_decide (y ++ [c] = []) D = false.
Proof. apply bool_decide_eq_false. destruct y; discriminate. Qed.

Lemma snoc_ends_with_slash y c : ends_with_slash (y ++ [c]) = is_slash c.
Proof. unfold ends_with_slash. rewrite rev_app_distr. reflexivity. Qed.

Lemma registry_dir_plain y c :
  is_slash c = false -> registry_dir (y ++ [c]) = y ++ [c].
Proof.
  intros Hc. unfold registry_dir.
  rewrite join_star, split_star by apply star_prefix_shape.
  unfold str.
  rewrite snoc_not_nil, snoc_ends_with_slash, Hc. simpl orb. cbv iota.
  change ((y ++ [c]) ++ py "/") with ((y ++ [c]) ++ [47%N]).
  rewrite snoc_not_nil.
  assert (E3 : forallb is_slash ((y ++ [c]) ++ [47%N]) = false).
  { rewrite !forallb_app. simpl. rewrite Hc. rewrite andb_false_r. reflexivity. }
  rewrite E3. simpl. apply rstrip_slash_snoc, Hc.
Qed.

Lemma join_plain y c name :
  is_slash c = false -> slash_free name = true ->
  os_path_join (y ++ [c]) name = (y ++ [c]) ++ py "/" ++ name.
Proof.
  intros Hc Hn. unfold os_path_join. rewrite (slash_free_start _ Hn).
  unfold str.
  rewrite snoc_not_nil, snoc_ends_with_slash, Hc. reflexivity.
Qed.

(** The stem of "base.ext" is "base". *)
Lemma stem_extension b0 rest ext :
  is_dot b0 = false ->
  slash_free (b0 :: rest) = true ->
  forallb (fun c => negb (is_slash c) && negb (is_dot c)) ext = true ->
  stem ((b0 :: rest) ++ py "." ++ ext) = b0 :: rest.
Proof.
  intros Hb Hs He.
  assert (He1 : forallb (fun a => negb (a =? 46)%N) ext = true).
  { apply forallb_forall. intros a Ha. rewrite forallb_forall in He.
    apply He, andb_true_iff in Ha as [_ Ha]. exact Ha. }
  assert (He2 : slash_free ext = true).
  { apply forallb_forall. intros a Ha. rewrite forallb_forall in He.
    apply He, andb_true_iff in Ha as [Ha _]. exact Ha. }
  unfold stem, os_path_splitext.
  assert (S1 : rfind 47 ((b0 :: rest) ++ py "." ++ ext) = -1).
  { apply slash_free_rfind. unfold slash_free in *.
    rewrite !forallb_app, Hs, He2. reflexivity. }
  assert (S2 : rfind 46 ((b0 :: rest) ++ py "." ++ ext)
               = Z.of_nat (length (b0 :: rest))).
  { apply (rfind_last 46 (b0 :: rest) ext He1). }
  rewrite S1, S2.
  destruct (Z.of_nat (length (b0 :: rest)) >? -1) eqn:E;
    [|rewrite Z.gtb_ltb in E; apply Z.ltb_ge in E; lia].
  rewrite Nat2Z.id, take_app_length. simpl Z.to_nat. simpl drop.
  simpl forallb. rewrite Hb. reflexivity.
Qed.

(** C9 (amended). For a folder path without glob metacharacters,
    [official_component_dict] has one entry for every distinct stem among
    the names of the listed directory that do not start with a dot, files
    and sub-directories alike, whatever their extension: the key is the name
    without its extension, the value is the directory joined with the last
    listed name of that stem.  Nothing else is in the mapping, so hidden
    names and the contents of sub-directories have no entry; the mapping has
    as many entries as there are visible names when their stems differ, and
    it is empty when the directory cannot be listed. *)
Theorem official_component_dict_spec folder :
  has_magic folder = false ->
  forallb slash_free (visible_names folder) = true ->
  (forall key path,
     official_component_dict folder !! key = Some path <->
     exists l1 name l2,
       visible_names folder = l1 ++ name :: l2
       /\ stem name = key
       /\ path = os_path_join (registry_dir folder) name
       /\ Forall (fun n => stem n <> key) l2)
  /\ (forall name,
        In name (visible_names folder) ->
        is_Some (official_component_dict folder !! stem name))
  /\ (NoDup (map stem (visible_names folder)) ->
      size (official_component_dict folder) = length (visible_names folder))
  /\ (scandir (if bool_decide (registry_dir folder = []) then py "."
               else registry_dir folder) = None ->
      official_component_dict folder = ∅)
  /\ (forall y c,
        folder = y ++ [c] -> is_slash c = false ->
        registry_dir folder = folder
        /\ forall name, slash_free name = true ->
             os_path_join folder name = folder ++ py "/" ++ name)
  /\ (forall b0 rest ext,
        is_dot b0 = false ->
        slash_free (b0 :: rest) = true ->
        forallb (fun c => negb (is_slash c) && negb (is_dot c)) ext = true ->
        stem ((b0 :: rest) ++ py "." ++ ext) = b0 :: rest).
Proof using fnmatch_star.
  intros Hm Hs.
  rewrite (official_component_dict_fold _ Hm Hs).
  split; [|split; [|split; [|split; [|split]]]].
  - intros key path.
    rewrite (fold_insert_lookup stem (os_path_join (registry_dir folder))).
    rewrite lookup_empty. split.
    + intros [(l1 & name & l2 & E & Hk & Hv & Hf) | [_ H]]; [|discriminate].
      exists l1, name, l2. repeat split; auto.
    + intros (l1 & name & l2 & E & Hk & Hv & Hf). left.
      exists l1, name, l2. repeat split; auto.
  - intros name Hin.
    apply (fold_insert_some stem (os_path_join (registry_dir folder))).
    right. exists name. split; [exact Hin | reflexivity].
  - intros Hnd.
    rewrite (fold_insert_size stem (os_path_join (registry_dir folder)));
      [rewrite map_size_empty; lia | exact Hnd |].
    intros a _. apply lookup_empty.
  - intros Hnone. unfold visible_names, listdir. rewrite Hnone. reflexivity.
  - intros y c -> Hc. split.
    + apply registry_dir_plain, Hc.
    + intros name Hn. apply join_plain; assumption.
  - apply stem_extension.
Qed.

(** ** The compositor *)

Lemma resolve_Some mapping name src im :
  mapping !! name = Some src -> load src = Ok im ->
  resolve mapping (Some name) = Some im.
Proof. intros Hm Hl; simpl; rewrite Hm, Hl; reflexivity. Qed.

Lemma resolve_absent mapping name :
  mapping !! name = None -> resolve mapping (Some name) = None.
Proof. intros Hm; simpl; rewrite Hm; reflexivity. Qed.

(** What the measuring pass accumulates, from any starting accumulator. *)
Lemma pass1_measure mapping g s order : forall st m,
  pass1 mapping g s order st = Ok m ->
  0 <= max_w st ->
  total_h m = total_h st + sum_heights (resolved_images mapping order) + g * spacers order
  /\ max_w m = Z.max (max_w st) (max_width (resolved_images mapping order))
  /\ (all_present mapping order ->
      length (resolved_images mapping order) = names order).
Proof.
  induction order as [|label rest IH]; intros st m H H0.
  - simpl in H; injection H as <-; cbn; repeat split; lia.
  - simpl in H. apply bind_Ok_inv in H as (st' & Hstep & Hrest).
    assert (Htail : all_present mapping (label :: rest) -> all_present mapping rest).
    { intros Hp name Hin; apply Hp; right; exact Hin. }
    unfold sum_heights, max_width in *.
    destruct label as [name|]; unfold resolved_images; cbn [omap list_omap].
    + unfold pass1_step in Hstep.
      destruct (mapping !! name) as [src|] eqn:Hm.
      * apply bind_Ok_inv in Hstep as (im & Hl & Hst); injection Hst as <-.
        apply IH in Hrest as (Hh & Hw & Hn); [|simpl; lia].
        rewrite (resolve_Some _ _ _ _ Hm Hl).
        cbn in *; fold (resolved_images mapping rest).
        repeat split; try lia.
        intros Hp; f_equal; apply Hn, Htail, Hp.
      * rewrite (resolve_absent _ _ Hm). fold (resolved_images mapping rest).
        destruct s; [injection Hstep as <- | discriminate].
        apply IH in Hrest as (Hh & Hw & Hn); [|exact H0].
        cbn; repeat split; try lia.
        intros Hp. destruct (Hp name) as [x Hx]; [left; reflexivity | congruence].
    + injection Hstep as <-.
      apply IH in Hrest as (Hh & Hw & Hn); [|exact H0].
      cbn in *; fold (resolved_images mapping rest).
      repeat split; try lia.
      intros Hp; apply Hn, Htail, Hp.
Qed.

(** The measuring pass goes through when every source opens and no name is
    refused. *)
Lemma pass1_total mapping g s order : forall st,
  all_load mapping order ->
  (s = true \/ all_present mapping order) ->
  is_ok (pass1 mapping g s order st).
Proof.
  induction order as [|label rest IH]; intros st Hl Hs.
  - eexists; reflexivity.
  - assert (Hl' : all_load mapping rest).
    { intros name src Hin; apply Hl; right; exact Hin. }
    assert (Hs' : s = true \/ all_present mapping rest).
    { destruct Hs as [Hs|Hs]; [left; exact Hs | right].
      intros name Hin; apply Hs; right; exact Hin. }
    simpl. destruct label as [name|]; simpl.
    + destruct (mapping !! name) as [src|] eqn:Hm.
      * destruct (Hl name src) as [im Him]; [left; reflexivity | exact Hm |].
        rewrite Him; simpl. apply IH; assumption.
      * destruct Hs as [-> | Hp].
        -- simpl; apply IH; [assumption | left; reflexivity].
        -- destruct (Hp name) as [x Hx]; [left; reflexivity | congruence].
    + apply IH; assumption.
Qed.

Lemma pass1_bounds mapping g s order : forall st m,
  pass1 mapping g s order st = Ok m ->
  0 <= g -> max_w st <= max_w m /\ total_h st <= total_h m.
Proof.
  induction order as [|label rest IH]; intros st m H Hg.
  - simpl in H; injection H as <-; lia.
  - simpl in H. apply bind_Ok_inv in H as (st' & Hstep & Hrest).
    apply IH in Hrest as [Hw Hh]; [|exact Hg].
    destruct label as [name|]; simpl in Hstep.
    + destruct (mapping !! name) as [src|].
      * apply bind_Ok_inv in Hstep as (im & _ & Hst); injection Hst as <-.
        simpl in *; lia.
      * destruct s; [injection Hstep as <-; lia | discriminate].
    + injection Hstep as <-; simpl in *; lia.
Qed.

(** Painting never resizes the canvas. *)
Lemma pass2_size maxw its : forall y cv,
  cw (pass2 maxw its y cv) = cw cv /\ ch (pass2 maxw its y cv) = ch cv.
Proof.
  induction its as [|[h|im] rest IH]; intros y cv; simpl.
  - split; reflexivity.
  - apply IH.
  - destruct (IH (y + Z.of_N (height im)) (alpha_composite cv im ((maxw - Z.of_N (width im)) / 2, y)))
      as [-> ->]; split; reflexivity.
Qed.

Lemma Image_new_inv w h cv :
  Image_new w h = Ok cv -> cv = {| cw := w; ch := h; layers := [] |}.
Proof.
  unfold Image_new; destruct ((w <? 0) || (h <? 0)); [discriminate|].
  destruct ((2 ^ 31 <=? w) || (2 ^ 31 <=? h)); [discriminate|].
  intros H; injection H as <-; reflexivity.
Qed.

(** A canvas is created with a size that is a C [int]. *)
Lemma Image_new_bounds w h cv :
  Image_new w h = Ok cv -> 0 <= w < 2 ^ 31 /\ 0 <= h < 2 ^ 31.
Proof.
  unfold Image_new.
  destruct (Z.ltb_spec w 0); [discriminate|].
  destruct (Z.ltb_spec h 0); [discriminate|].
  destruct (Z.leb_spec (2 ^ 31) w); [discriminate|].
  destruct (Z.leb_spec (2 ^ 31) h); [discriminate|].
  intros _; lia.
Qed.

(** A run of [stack_dhd] that returns went through its four stages. *)
Lemma stack_dhd_inv order mapping path g s out cv :
  stack_dhd order mapping path g s = Ok (out, cv) ->
  exists m, pass1 mapping g s order measure0 = Ok m
            /\ Image_new (max_w m) (total_h m)
               = Ok {| cw := max_w m; ch := total_h m; layers := [] |}
            /\ cv = pass2 (max_w m) (items m) 0
                      {| cw := max_w m; ch := total_h m; layers := [] |}
            /\ save cv path = Ok tt
            /\ out = path.
Proof.
  unfold stack_dhd; intros H.
  apply bind_Ok_inv in H as (m & Hm & H).
  apply bind_Ok_inv in H as (cv0 & Hnew & H).
  apply bind_Ok_inv in H as ([] & Hsave & H).
  injection H as <- <-.
  pose proof (Image_new_inv _ _ _ Hnew) as ->.
  exists m; repeat split; assumption.
Qed.

(** The saved canvas has the size measured by pass 1. *)
Lemma stack_dhd_size order mapping path g s out cv :
  stack_dhd order mapping path g s = Ok (out, cv) ->
  exists m, pass1 mapping g s order measure0 = Ok m
            /\ out = path /\ cw cv = max_w m /\ ch cv = total_h m.
Proof.
  intros H.
  apply stack_dhd_inv in H as (m & Hm & _ & -> & _ & ->).
  destruct (pass2_size (max_w m) (items m) 0
              {| cw := max_w m; ch := total_h m; layers := [] |}) as [-> ->].
  exists m; repeat split; assumption.
Qed.

(** The units recorded by the measuring pass: their heights add up to the
    measured height and no image is wider than the measured width. *)
Lemma pass1_items mapping g s order : forall st m,
  pass1 mapping g s order st = Ok m ->
  0 <= g ->
  exists its,
    items m = items st ++ its
    /\ total_h m = total_h st + foldr (fun it acc => item_height it + acc) 0 its
    /\ Forall (fun it => 0 <= item_height it
                         /\ match it with
                            | gap _ => True
                            | img im => Z.of_N (width im) <= max_w m
                            end) its.
Proof.
  induction order as [|label rest IH]; intros st m H Hg.
  - simpl in H; injection H as <-. exists []. rewrite app_nil_r.
    repeat split; [simpl; lia | constructor].
  - simpl in H. apply bind_Ok_inv in H as (st' & Hstep & Hrest).
    destruct (pass1_bounds _ _ _ _ _ _ Hrest Hg) as [Hw _].
    destruct (IH _ _ Hrest Hg) as (its & Hi & Hh & Hf).
    destruct label as [name|]; simpl in Hstep.
    + destruct (mapping !! name) as [src|].
      * apply bind_Ok_inv in Hstep as (im & _ & Hst); injection Hst as <-.
        simpl in *. exists (img im :: its).
        rewrite Hi, <- app_assoc. repeat split; [simpl; lia|].
        constructor; [simpl; lia | exact Hf].
      * destruct s; [injection Hstep as <- | discriminate].
        exists its. repeat split; assumption.
    + injection Hstep as <-. simpl in *. exists (gap g :: its).
      rewrite Hi, <- app_assoc. repeat split; [simpl; lia|].
      constructor; [simpl; auto | exact Hf].
Qed.

Lemma pass2_within w h its : forall y cv,
  Forall (fun it => 0 <= item_height it
                    /\ match it with
                       | gap _ => True
                       | img im => Z.of_N (width im) <= w
                       end) its ->
  0 <= y ->
  y + foldr (fun it acc => item_height it + acc) 0 its <= h ->
  Forall (within w h) (layers cv) ->
  Forall (within w h) (layers (pass2 w its y cv)).
Proof.
  induction its as [|[gh|im] rest IH]; intros y cv Hf Hy Hsum Hcv; simpl.
  - exact Hcv.
  - apply Forall_cons in Hf as [[H0 _] Hf]. simpl in *.
    apply IH; [exact Hf | lia | lia | exact Hcv].
  - apply Forall_cons in Hf as [[H0 Hw] Hf]. simpl in *.
    assert (Hrest : 0 <= foldr (fun it acc => item_height it + acc) 0 rest).
    { clear - Hf. induction Hf as [|it l [Hit _] _ IHl]; simpl; lia. }
    apply IH; [exact Hf | lia | lia |].
    apply Forall_app. split; [exact Hcv|].
    constructor; [|constructor]. unfold within; simpl.
    assert (0 <= (w - Z.of_N (width im)) / 2 <= w - Z.of_N (width im)).
    { split; [apply Z.div_pos; lia | apply Z.div_le_upper_bound; lia]. }
    lia.
Qed.

(** With a gap that is not negative, every image is painted inside the
    canvas: no [alpha_composite] call falls outside. *)
Lemma stack_dhd_layers_within order mapping path g s out cv :
  stack_dhd order mapping path g s = Ok (out, cv) ->
  0 <= g ->
  Forall (within (cw cv) (ch cv)) (layers cv).
Proof.
  intros H Hg.
  apply stack_dhd_inv in H as (m & Hm & _ & -> & _ & _).
  destruct (pass2_size (max_w m) (items m) 0
              {| cw := max_w m; ch := total_h m; layers := [] |}) as [-> ->].
  destruct (pass1_items _ _ _ _ _ _ Hm Hg) as (its & Hi & Hsum & Hf).
  simpl in Hi, Hsum. rewrite Hi.
  apply pass2_within; [exact Hf | simpl; lia | simpl; lia |].
  constructor.
Qed.

(** C1. For an order all of whose component names are keys of the mapping,
    the canvas written by [stack_dhd] has height the sum of the heights of
    the referenced images plus [gap_pixels] times the number of spacers, and
    every name of the order contributes one image to that sum. *)
Theorem stack_dhd_height order mapping path gap_pixels skip_missing out cv :
  all_present mapping order ->
  stack_dhd order mapping path gap_pixels skip_missing = Ok (out, cv) ->
  ch cv = sum_heights (resolved_images mapping order) + gap_pixels * spacers order
  /\ length (resolved_images mapping order) = names order.
Proof.
  intros Hp H.
  apply stack_dhd_size in H as (m & Hm & _ & _ & ->).
  apply pass1_measure in Hm as (Hh & _ & Hn); [|simpl; lia].
  simpl in Hh; split; [lia | apply Hn, Hp].
Qed.

Lemma pass1_app mapping g s o1 : forall o2 st,
  pass1 mapping g s (o1 ++ o2) st =
  (st' <- pass1 mapping g s o1 st ;; pass1 mapping g s o2 st').
Proof.
  induction o1 as [|label o1 IH]; intros o2 st; simpl; [reflexivity|].
  destruct (pass1_step mapping g s st label); simpl; [apply IH | reflexivity].
Qed.

(** An order of spacers only is measured without touching the mapping. *)
Lemma pass1_spacers mapping g s order : forall st,
  (forall label, In label order -> label = None) ->
  pass1 mapping g s order st =
  Ok {| items := items st ++ map (fun _ => gap g) order;
        max_w := max_w st;
        total_h := total_h st + g * Z.of_nat (length order) |}.
Proof.
  induction order as [|label rest IH]; intros st Hall.
  - simpl. destruct st; simpl. rewrite app_nil_r. f_equal; f_equal; lia.
  - rewrite (Hall label) by (left; reflexivity). simpl.
    rewrite IH by (intros l Hl; apply Hall; right; exact Hl). simpl.
    rewrite <- app_assoc. simpl. f_equal; f_equal; lia.
Qed.

Lemma pass2_gaps maxw g (order : list (option str)) : forall y cv,
  pass2 maxw (map (fun _ => gap g) order) y cv = cv.
Proof.
  induction order as [|label rest IH]; intros y cv; simpl; [reflexivity | apply IH].
Qed.

(** C2 (amended). The canvas written by [stack_dhd] is as wide as the
    widest resolved image but never narrower than 1: its width is the maximum
    of 1 and the resolved images' widths.  It is 1 when no image is resolved,
    and the largest image width when every resolved image is at least one
    pixel wide.  The canvas written for an order of spacers only has width
    1 and height the sum of the gaps, with nothing painted. *)
Theorem stack_dhd_width order mapping path gap_pixels skip_missing out cv :
  stack_dhd order mapping path gap_pixels skip_missing = Ok (out, cv) ->
  cw cv = Z.max 1 (max_width (resolved_images mapping order))
  /\ (resolved_images mapping order = [] -> cw cv = 1)
  /\ (Forall (fun im => 1 <= Z.of_N (width im)) (resolved_images mapping order) ->
      cw cv = width_as_specified (resolved_images mapping order))
  /\ ((forall label, In label order -> label = None) ->
      cv = {| cw := 1; ch := gap_pixels * Z.of_nat (length order); layers := [] |}).
Proof.
  intros H.
  apply stack_dhd_inv in H as (m & Hm & _ & Hcv & _ & _).
  pose proof (pass1_measure _ _ _ _ _ _ Hm) as Hw.
  destruct Hw as (_ & Hw & _); [simpl; lia|]. simpl in Hw.
  assert (Hcw : cw cv = max_w m).
  { rewrite Hcv. apply pass2_size. }
  rewrite Hcw.
  split; [exact Hw|]. split; [|split].
  - intros E; rewrite Hw, E; reflexivity.
  - intros Hall. rewrite Hw.
    destruct (resolved_images mapping order) as [|im ims]; [reflexivity|].
    apply Forall_cons in Hall as [H1 _].
    unfold width_as_specified, max_width; simpl. lia.
  - intros Hall. rewrite pass1_spacers in Hm by exact Hall.
    injection Hm as <-. simpl in Hcv. rewrite pass2_gaps in Hcv.
    rewrite Hcv. reflexivity.
Qed.

(** C3 (amended). A call of [stack_dhd] that leaves [gap_pixels] out runs
    with a spacer height of 6: it is the call with [gap_pixels = 6], and the
    canvas it writes is 6 pixels taller per spacer than the images alone.
    The value 8 is what the pipeline's own call passes explicitly. *)
Theorem stack_dhd_default_gap order mapping path skip_missing :
  stack_dhd_call order mapping path None skip_missing =
  stack_dhd order mapping (default (py "stack.png") path) 6 (default true skip_missing)
  /\ (forall out cv,
        stack_dhd_call order mapping path None skip_missing = Ok (out, cv) ->
        ch cv = sum_heights (resolved_images mapping order) + 6 * spacers order)
  /\ (forall dhd_image_path,
        pipeline_stack order mapping dhd_image_path =
        stack_dhd order mapping dhd_image_path 8 true).
Proof.
  split; [reflexivity|]. split; [|reflexivity].
  intros out cv H. unfold stack_dhd_call in H.
  apply stack_dhd_size in H as (m & Hm & _ & _ & ->).
  apply pass1_measure in Hm as (Hh & _ & _); [|simpl; lia].
  simpl in Hh. exact Hh.
Qed.

(** With [skip_missing] set, a name that is not a key of the mapping leaves
    the measuring pass where it was. *)
Lemma pass1_skip_absent mapping g o1 b o2 st :
  mapping !! b = None ->
  pass1 mapping g true (o1 ++ Some b :: o2) st = pass1 mapping g true (o1 ++ o2) st.
Proof.
  intros Hb. rewrite !pass1_app.
  destruct (pass1 mapping g true o1 st) as [st'|e]; simpl; [|reflexivity].
  rewrite Hb. reflexivity.
Qed.

(** C4. With [skip_missing] set, compositing [[A; B]] where [B] is not a key
    of the mapping gives the very result of compositing [[A]]: same outcome,
    same canvas size, same painted layers. *)
Theorem stack_dhd_skip_missing a b mapping path gap_pixels :
  mapping !! b = None ->
  stack_dhd [Some a; Some b] mapping path gap_pixels true =
  stack_dhd [Some a] mapping path gap_pixels true.
Proof.
  intros Hb. unfold stack_dhd.
  change [Some a; Some b] with ([Some a] ++ Some b :: []).
  rewrite (pass1_skip_absent mapping gap_pixels [Some a] b [] measure0 Hb).
  reflexivity.
Qed.

(** C5 (amended). With [skip_missing] unset, an order that holds a name
    missing from the mapping never yields a canvas; when [b] is the first
    such name and the sources of the names before it load, the measuring
    pass itself raises [KeyError b], so the failure carries the first
    offending name and precedes the creation of the canvas. *)
Theorem stack_dhd_fail_fast pre b rest mapping path gap_pixels :
  mapping !! b = None ->
  all_present mapping pre ->
  (forall out cv,
     stack_dhd (pre ++ Some b :: rest) mapping path gap_pixels false <> Ok (out, cv))
  /\ (all_load mapping pre ->
      pass1 mapping gap_pixels false (pre ++ Some b :: rest) measure0 = Raise (KeyError b)
      /\ stack_dhd (pre ++ Some b :: rest) mapping path gap_pixels false
         = Raise (KeyError b)).
Proof.
  intros Hb Hp.
  assert (Hstep : forall st,
    pass1 mapping gap_pixels false (Some b :: rest) st = Raise (KeyError b)).
  { intros st; simpl; rewrite Hb; reflexivity. }
  split.
  - intros out cv H. unfold stack_dhd in H. rewrite pass1_app in H.
    destruct (pass1 mapping gap_pixels false pre measure0) as [st|e]; simpl in H.
    + rewrite Hb in H. discriminate.
    + discriminate.
  - intros Hl.
    destruct (pass1_total mapping gap_pixels false pre measure0 Hl (or_intror Hp))
      as [st Hst].
    assert (E : pass1 mapping gap_pixels false (pre ++ Some b :: rest) measure0
                = Raise (KeyError b)).
    { rewrite pass1_app, Hst. simpl bind. apply Hstep. }
    split; [exact E|]. unfold stack_dhd. rewrite E. reflexivity.
Qed.


(** ** Further properties of the compositor *)

Lemma pass1_units mapping g s order : forall st m,
  pass1 mapping g s order st = Ok m ->
  items m = items st ++ omap (unit_of mapping g) order.
Proof.
  induction order as [|label rest IH]; intros st m H.
  - simpl in H; injection H as <-. simpl. symmetry; apply app_nil_r.
  - simpl in H. apply bind_Ok_inv in H as (st' & Hstep & Hrest).
    apply IH in Hrest. rewrite Hrest. clear Hrest IH.
    destruct label as [name|]; cbn [omap list_omap unit_of].
    + unfold pass1_step in Hstep. destruct (mapping !! name) as [src|] eqn:Hm.
      * apply bind_Ok_inv in Hstep as (im & Hl & Hst); injection Hst as <-.
        rewrite (resolve_Some _ _ _ _ Hm Hl). simpl.
        rewrite <- app_assoc. reflexivity.
      * rewrite (resolve_absent _ _ Hm).
        destruct s; [injection Hstep as <-; reflexivity | discriminate].
    + injection Hstep as <-. simpl. rewrite <- app_assoc. reflexivity.
Qed.

Lemma images_of_units mapping g order :
  images_of (omap (unit_of mapping g) order) = resolved_images mapping order.
Proof.
  unfold images_of, resolved_images.
  induction order as [|[name|] rest IH]; cbn [omap list_omap unit_of];
    [reflexivity | | exact IH].
  destruct (resolve mapping (Some name)); cbn [omap list_omap];
    [f_equal|]; exact IH.
Qed.

Lemma pass2_paint w its : forall y cv,
  layers (pass2 w its y cv) = layers cv ++ paint w its y.
Proof.
  induction its as [|[h|im] rest IH]; intros y cv; simpl.
  - symmetry; apply app_nil_r.
  - apply IH.
  - rewrite IH. simpl. rewrite <- app_assoc. reflexivity.
Qed.

Lemma paint_images w its : forall y, map fst (paint w its y) = images_of its.
Proof.
  unfold images_of.
  induction its as [|[h|im] rest IH]; intros y; cbn [paint omap list_omap map];
    [reflexivity | apply IH | simpl; f_equal; apply IH].
Qed.

Lemma paint_centered w its : forall y, Forall (centered w) (paint w its y).
Proof.
  induction its as [|[h|im] rest IH]; intros y; simpl;
    [constructor | apply IH | constructor; [reflexivity | apply IH]].
Qed.

Lemma stacked_weaken ls : forall y y', y' <= y -> stacked y ls -> stacked y' ls.
Proof.
  destruct ls as [|l ls]; simpl; [tauto|]. intros y y' Hy [H1 H2].
  split; [lia | exact H2].
Qed.

Lemma paint_stacked w its : forall y,
  Forall (fun it => 0 <= item_height it) its -> stacked y (paint w its y).
Proof.
  induction its as [|[h|im] rest IH]; intros y Hf; simpl; [exact I | |].
  - apply Forall_cons in Hf as [Hh Hf]. simpl in Hh.
    apply (stacked_weaken _ (y + h)); [lia | apply IH, Hf].
  - apply Forall_cons in Hf as [_ Hf]. split; [lia | apply IH, Hf].
Qed.

Lemma units_heights mapping g order :
  0 <= g -> Forall (fun it => 0 <= item_height it) (omap (unit_of mapping g) order).
Proof.
  intros Hg. induction order as [|[name|] rest IH]; cbn [omap list_omap unit_of].
  - constructor.
  - destruct (resolve mapping (Some name)); cbn [omap list_omap];
      [constructor; [simpl; lia | exact IH] | exact IH].
  - constructor; [exact Hg | exact IH].
Qed.

Lemma resolved_RGBA mapping order :
  Forall (fun im => mode im = py "RGBA") (resolved_images mapping order).
Proof.
  unfold resolved_images.
  induction order as [|[name|] rest IH]; cbn [omap list_omap]; [constructor | | exact IH].
  destruct (resolve mapping (Some name)) as [im|] eqn:E; [|exact IH].
  constructor; [|exact IH].
  simpl in E. destruct (mapping !! name) as [src|]; [|discriminate].
  assert (Hc : forall im0, to_option (convert im0) = Some im -> mode im = py "RGBA").
  { intros im0. unfold convert. destruct (convertible (mode im0)); [|discriminate].
    intros H; injection H as <-. reflexivity. }
  unfold load in E. destruct src as [p|im0]; simpl in E.
  - destruct (Image_open p) as [im0|]; simpl in E; [|discriminate].
    apply (Hc im0), E.
  - apply (Hc (copy im0)), E.
Qed.

(** The layers of the canvas written by [stack_dhd]. *)
Lemma stack_dhd_layers order mapping path g s out cv :
  stack_dhd order mapping path g s = Ok (out, cv) ->
  layers cv = paint (cw cv) (omap (unit_of mapping g) order) 0.
Proof.
  intros H.
  apply stack_dhd_inv in H as (m & Hm & _ & -> & _ & _).
  destruct (pass2_size (max_w m) (items m) 0
              {| cw := max_w m; ch := total_h m; layers := [] |}) as [-> _].
  rewrite pass2_paint, (pass1_units _ _ _ _ _ _ Hm). reflexivity.
Qed.

(** X1. The images painted on the canvas are the resolved images, one layer
    for each occurrence of a resolved name and in the order's sequence; each
    is horizontally centred on the canvas and in mode RGBA. *)
Theorem stack_dhd_paints_resolved order mapping path gap_pixels skip_missing out cv :
  stack_dhd order mapping path gap_pixels skip_missing = Ok (out, cv) ->
  map fst (layers cv) = resolved_images mapping order
  /\ Forall (centered (cw cv)) (layers cv)
  /\ Forall (fun layer => mode (fst layer) = py "RGBA") (layers cv).
Proof.
  intros H. rewrite (stack_dhd_layers _ _ _ _ _ _ _ H).
  assert (E : map fst (paint (cw cv) (omap (unit_of mapping gap_pixels) order) 0)
              = resolved_images mapping order).
  { rewrite paint_images. apply images_of_units. }
  split; [exact E|]. split; [apply paint_centered|].
  apply Forall_forall. intros layer Hin.
  pose proof (resolved_RGBA mapping order) as HR. rewrite <- E in HR.
  rewrite Forall_forall in HR. apply HR.
  apply list_elem_of_In, in_map, list_elem_of_In, Hin.
Qed.

(** X2. With a gap that is not negative the painted images follow one
    another downwards from the top: each starts at or below the bottom edge
    of the one before, so no two overlap. *)
Theorem stack_dhd_layers_stacked order mapping path gap_pixels skip_missing out cv :
  stack_dhd order mapping path gap_pixels skip_missing = Ok (out, cv) ->
  0 <= gap_pixels ->
  stacked 0 (layers cv).
Proof.
  intros H Hg. rewrite (stack_dhd_layers _ _ _ _ _ _ _ H).
  apply paint_stacked, units_heights, Hg.
Qed.

(** X3. With a gap that is not negative every image is painted inside the
    canvas. *)
Theorem stack_dhd_paints_inside order mapping path gap_pixels skip_missing out cv :
  stack_dhd order mapping path gap_pixels skip_missing = Ok (out, cv) ->
  0 <= gap_pixels ->
  Forall (within (cw cv) (ch cv)) (layers cv).
Proof. apply stack_dhd_layers_within. Qed.

Lemma pass1_present_only mapping g order : forall st,
  pass1 mapping g true (present_only mapping order) st = pass1 mapping g true order st.
Proof.
  induction order as [|[name|] rest IH]; intros st; [reflexivity | |].
  - unfold present_only. simpl. destruct (mapping !! name) as [src|] eqn:Hm.
    + simpl. rewrite Hm. destruct (load src); simpl; [apply IH | reflexivity].
    + simpl. apply IH.
  - unfold present_only. simpl. apply IH.
Qed.

(** X4. With [skip_missing] set, the names that are not keys of the mapping
    can be struck from the order: the outcome is the same, canvas and
    errors alike. *)
Theorem stack_dhd_present_only order mapping path gap_pixels :
  stack_dhd order mapping path gap_pixels true =
  stack_dhd (present_only mapping order) mapping path gap_pixels true.
Proof. unfold stack_dhd. rewrite pass1_present_only. reflexivity. Qed.

(** X5. When the measured height is negative, which only a negative
    [gap_pixels] brings about, [stack_dhd] raises [ValueError] at the creation
    of the canvas and nothing is painted or saved. *)
Theorem stack_dhd_negative_height order mapping path gap_pixels skip_missing :
  all_load mapping order ->
  (skip_missing = true \/ all_present mapping order) ->
  sum_heights (resolved_images mapping order) + gap_pixels * spacers order < 0 ->
  stack_dhd order mapping path gap_pixels skip_missing = Raise ValueError
  /\ gap_pixels < 0.
Proof.
  intros Hl Hs Hneg.
  destruct (pass1_total mapping gap_pixels skip_missing order measure0 Hl Hs) as [m Hm].
  destruct (pass1_measure _ _ _ _ _ _ Hm) as (Hh & Hw & _); [simpl; lia|].
  simpl in Hh, Hw. split.
  - unfold stack_dhd. rewrite Hm. cbn [bind]. unfold Image_new.
    destruct (total_h m <? 0) eqn:E; [|apply Z.ltb_ge in E; lia].
    rewrite orb_true_r. reflexivity.
  - destruct (Z.lt_ge_cases gap_pixels 0) as [Hg|Hg]; [exact Hg|].
    destruct (pass1_bounds _ _ _ _ _ _ Hm Hg) as [_ Hb]. simpl in Hb. lia.
Qed.

(** X6. A name whose source is a path that cannot be opened makes
    [stack_dhd] raise the opening error, whatever [skip_missing] is:
    skipping applies to names missing from the mapping only. *)
Theorem stack_dhd_unreadable pre name p rest mapping path gap_pixels skip_missing :
  all_load mapping pre ->
  (skip_missing = true \/ all_present mapping pre) ->
  mapping !! name = Some (SrcPath p) ->
  image_files p = None ->
  stack_dhd (pre ++ Some name :: rest) mapping path gap_pixels skip_missing
  = Raise (OSError p).
Proof.
  intros Hl Hs Hm Hp.
  destruct (pass1_total mapping gap_pixels skip_missing pre measure0 Hl Hs) as [st Hst].
  unfold stack_dhd. rewrite pass1_app, Hst. simpl.
  rewrite Hm. unfold load, Image_open. rewrite Hp. reflexivity.
Qed.

Lemma spacers_app o1 o2 : spacers (o1 ++ o2) = spacers o1 + spacers o2.
Proof.
  induction o1 as [|[name|] o1 IH]; simpl; [reflexivity | exact IH | lia].
Qed.

Lemma sum_heights_app l1 l2 : sum_heights (l1 ++ l2) = sum_heights l1 + sum_heights l2.
Proof.
  unfold sum_heights. induction l1 as [|im l1 IH]; simpl; [reflexivity | lia].
Qed.

Lemma max_width_app l1 l2 : max_width (l1 ++ l2) = Z.max (max_width l1) (max_width l2).
Proof.
  unfold max_width. induction l1 as [|im l1 IH]; simpl.
  - induction l2 as [|im l2 IH2]; simpl; lia.
  - lia.
Qed.

Lemma resolved_images_app mapping o1 o2 :
  resolved_images mapping (o1 ++ o2) =
  resolved_images mapping o1 ++ resolved_images mapping o2.
Proof. unfold resolved_images. apply omap_app. Qed.

(** X7. Stacking a concatenated order: when the whole order and its two
    parts are each written, the whole canvas is as high as the two canvases
    together and as wide as the wider of them, and the images painted on it
    are those of the first canvas followed by those of the second. *)
Theorem stack_dhd_app o1 o2 mapping path gap_pixels skip_missing out cv out1 cv1 out2 cv2 :
  stack_dhd (o1 ++ o2) mapping path gap_pixels skip_missing = Ok (out, cv) ->
  stack_dhd o1 mapping path gap_pixels skip_missing = Ok (out1, cv1) ->
  stack_dhd o2 mapping path gap_pixels skip_missing = Ok (out2, cv2) ->
  ch cv = ch cv1 + ch cv2
  /\ cw cv = Z.max (cw cv1) (cw cv2)
  /\ map fst (layers cv) = map fst (layers cv1) ++ map fst (layers cv2).
Proof.
  intros H H1 H2.
  assert (L : forall o out' cv',
            stack_dhd o mapping path gap_pixels skip_missing = Ok (out', cv') ->
            map fst (layers cv') = resolved_images mapping o).
  { intros o out' cv' Ho. rewrite (stack_dhd_layers _ _ _ _ _ _ _ Ho).
    rewrite paint_images. apply images_of_units. }
  rewrite (L _ _ _ H), (L _ _ _ H1), (L _ _ _ H2), resolved_images_app.
  apply stack_dhd_size in H as (m & Hm & _ & -> & ->).
  apply stack_dhd_size in H1 as (m1 & Hm1 & _ & -> & ->).
  apply stack_dhd_size in H2 as (m2 & Hm2 & _ & -> & ->).
  destruct (pass1_measure _ _ _ _ _ _ Hm) as (Hh & Hw & _); [simpl; lia|].
  destruct (pass1_measure _ _ _ _ _ _ Hm1) as (Hh1 & Hw1 & _); [simpl; lia|].
  destruct (pass1_measure _ _ _ _ _ _ Hm2) as (Hh2 & Hw2 & _); [simpl; lia|].
  rewrite resolved_images_app, sum_heights_app, max_width_app, spacers_app in *.
  simpl in Hh, Hw, Hh1, Hw1, Hh2, Hw2.
  split; [lia|]. split; [lia | reflexivity].
Qed.

Lemma pass1_skip_irrelevant mapping g order : forall st,
  all_present mapping order ->
  pass1 mapping g true order st = pass1 mapping g false order st.
Proof.
  induction order as [|label rest IH]; intros st Hp; [reflexivity|].
  assert (Hp' : all_present mapping rest).
  { intros name Hin; apply Hp; right; exact Hin. }
  simpl. destruct label as [name|]; simpl.
  - destruct (Hp name) as [src Hsrc]; [left; reflexivity|]. rewrite Hsrc.
    destruct (load src); simpl; [apply IH, Hp' | reflexivity].
  - apply IH, Hp'.
Qed.

(** X8. When every name of the order is a key of the mapping, [skip_missing]
    makes no difference to the outcome. *)
Theorem stack_dhd_skip_irrelevant order mapping path gap_pixels :
  all_present mapping order ->
  stack_dhd order mapping path gap_pixels true =
  stack_dhd order mapping path gap_pixels false.
Proof.
  intros Hp. unfold stack_dhd. rewrite (pass1_skip_irrelevant _ _ _ _ Hp).
  reflexivity.
Qed.



(** ** Further properties of [slugify] *)

Lemma lstrip_clean t :
  forallb (fun c => negb (is_space c)) t = true -> lstrip t = t.
Proof.
  destruct t as [|c t]; simpl; [reflexivity|].
  intros H. apply andb_true_iff in H as [Hc _].
  apply negb_true_iff in Hc. rewrite Hc. reflexivity.
Qed.

Lemma forallb_rev {A} (f : A -> bool) (l : list A) :
  forallb f l = true -> forallb f (rev l) = true.
Proof.
  intros H. apply forallb_forall. intros x Hx.
  rewrite forallb_forall in H. apply H, in_rev, Hx.
Qed.

Lemma strip_clean t :
  forallb (fun c => negb (is_space c)) t = true -> strip t = t.
Proof.
  intros H. unfold strip, rstrip. rewrite (lstrip_clean _ H).
  rewrite (lstrip_clean _ (forallb_rev _ _ H)). apply rev_involutive.
Qed.

Lemma slug_chars_fixed t :
  forallb is_slug_char t = true ->
  lower (strip (re_sub_class dropped [] (encode_ascii_ignore t))) = t
  /\ re_sub_runs separator (py "_") false t = t
  /\ forallb is_ascii t = true.
Proof.
  intros H.
  assert (F : forall c, In c t ->
            is_ascii c = true /\ dropped c = false /\ is_space c = false
            /\ separator c = false /\ lower_char c = c).
  { intros c Hc. rewrite forallb_forall in H. apply slug_char_facts, H, Hc. }
  assert (Fa : forallb is_ascii t = true).
  { apply forallb_forall. intros c Hc. apply F, Hc. }
  split; [|split; [|exact Fa]].
  - unfold encode_ascii_ignore. rewrite (filter_all _ _ Fa).
    rewrite re_sub_class_none
      by (apply forallb_forall; intros c Hc; apply negb_true_iff, F, Hc).
    rewrite strip_clean
      by (apply forallb_forall; intros c Hc; apply negb_true_iff, F, Hc).
    apply lower_fixed. apply forallb_forall. intros c Hc. apply N.eqb_eq, F, Hc.
  - rewrite <- (app_nil_r t) at 1. rewrite re_sub_runs_prefix.
    + simpl. apply app_nil_r.
    + apply forallb_forall. intros c Hc. apply negb_true_iff, F, Hc.
Qed.

(** X9. [slugify] is idempotent: a slug is its own slug. *)
Theorem slugify_idempotent text : slugify (slugify text) = slugify text.
Proof using nfkd_ascii.
  assert (H : forallb is_slug_char (slugify text) = true).
  { apply forallb_forall. intros c Hc. apply (slugify_chars text), Hc. }
  destruct (slug_chars_fixed _ H) as (E1 & E2 & E3).
  unfold slugify at 1. rewrite (nfkd_ascii _ E3). cbv zeta.
  rewrite E1. exact E2.
Qed.

Lemma lower_char_classes c :
  is_ascii (lower_char c) = is_ascii c
  /\ dropped (lower_char c) = dropped c
  /\ is_space (lower_char c) = is_space c
  /\ lower_char (lower_char c) = lower_char c.
Proof.
  unfold dropped, lower_char, is_word, is_space, is_hyphen, is_ascii.
  destruct ((65 <=? c) && (c <=? 90))%N eqn:E.
  - apply andb_true_iff in E as [E1 E2]. apply N.leb_le in E1, E2.
    assert (X : forall a b : N, (a <=? b)%N = true <-> (a <= b)%N)
      by (intros; apply N.leb_le).
    assert (Y : forall a b : N, (a <=? b)%N = false <-> (b < a)%N)
      by (intros; apply N.leb_gt).
    destruct (65 <=? c + 32)%N eqn:A1; [|apply Y in A1; lia].
    destruct (c + 32 <=? 90)%N eqn:A2; [apply X in A2; lia|].
    simpl.
    repeat match goal with
    | |- context [(?a <=? ?b)%N] =>
        let e := fresh in destruct (a <=? b)%N eqn:e;
        [apply X in e | apply Y in e]; try lia
    | |- context [(?a <? ?b)%N] =>
        let e := fresh in destruct (a <? b)%N eqn:e;
        [apply N.ltb_lt in e | apply N.ltb_ge in e]; try lia
    | |- context [(?a =? ?b)%N] =>
        let e := fresh in destruct (a =? b)%N eqn:e;
        [apply N.eqb_eq in e | apply N.eqb_neq in e]; try lia
    end; simpl; repeat split; try reflexivity; try lia.
  - rewrite E. repeat split; reflexivity.
Qed.

Lemma lower_filter_ascii t :
  encode_ascii_ignore (lower t) = lower (encode_ascii_ignore t).
Proof.
  unfold encode_ascii_ignore, lower.
  induction t as [|c t IH]; simpl; [reflexivity|].
  destruct (lower_char_classes c) as (-> & _).
  destruct (is_ascii c); simpl; [f_equal|]; exact IH.
Qed.

Lemma lower_re_sub_dropped t :
  re_sub_class dropped [] (lower t) = lower (re_sub_class dropped [] t).
Proof.
  unfold re_sub_class, lower.
  induction t as [|c t IH]; simpl; [reflexivity|].
  destruct (lower_char_classes c) as (_ & -> & _).
  destruct (dropped c); simpl; [|f_equal]; exact IH.
Qed.

Lemma lower_lstrip t : lstrip (lower t) = lower (lstrip t).
Proof.
  unfold lower. induction t as [|c t IH]; simpl; [reflexivity|].
  destruct (lower_char_classes c) as (_ & _ & -> & _).
  destruct (is_space c); [exact IH | reflexivity].
Qed.

Lemma lower_strip t : strip (lower t) = lower (strip t).
Proof.
  unfold strip, rstrip. rewrite lower_lstrip.
  unfold lower at 1. rewrite <- map_rev. fold (lower (rev (lstrip t))).
  rewrite lower_lstrip. unfold lower. rewrite map_rev. reflexivity.
Qed.

Lemma lower_lower t : lower (lower t) = lower t.
Proof.
  unfold lower. rewrite map_map. apply map_ext. intros c.
  apply lower_char_classes.
Qed.

(** X10. On ASCII text [slugify] ignores case: a text and its lowercase
    have the same slug, so well names that differ in case only are given
    the same output file. *)
Theorem slugify_ignores_case text :
  forallb is_ascii text = true ->
  slugify (lower text) = slugify text.
Proof using nfkd_ascii.
  intros H.
  assert (Hl : forallb is_ascii (lower text) = true).
  { apply forallb_forall. intros c Hc. unfold lower in Hc.
    apply in_map_iff in Hc as (c0 & <- & Hc0).
    destruct (lower_char_classes c0) as (-> & _).
    rewrite forallb_forall in H. apply H, Hc0. }
  unfold slugify. rewrite (nfkd_ascii _ H), (nfkd_ascii _ Hl). cbv zeta.
  rewrite lower_filter_ascii, lower_re_sub_dropped, lower_strip, lower_lower.
  reflexivity.
Qed.

(** ** Further properties of [create_dhd_excel] *)

Lemma bind_ret {A} (m : result A) : (x <- m ;; Ok x) = m.
Proof. destruct m; reflexivity. Qed.

Lemma ws_cell_other ws row column value ws' rc :
  ws_cell ws row column value = Ok ws' ->
  rc <> (row, column) -> ws' !! rc = ws !! rc.
Proof.
  unfold ws_cell. intros H Hne.
  assert (E : (match ws !! (row, column) with
               | Some _ => ws
               | None => <[(row, column) := JNull]> ws
               end) !! rc = ws !! rc).
  { destruct (ws !! (row, column)); [reflexivity|].
    apply lookup_insert_ne. congruence. }
  destruct (is_None value).
  - injection H as <-. exact E.
  - apply bind_Ok_inv in H as (v & _ & H). injection H as <-.
    rewrite lookup_insert_ne by congruence. exact E.
Qed.

Lemma ws_cell_same ws row column value ws' :
  ws_cell ws row column value = Ok ws' ->
  exists v, cell_after (ws !! (row, column)) value = Ok v
            /\ ws' !! (row, column) = Some v.
Proof.
  unfold ws_cell, cell_after. intros H. destruct (is_None value).
  - injection H as <-. eexists. split; [reflexivity|].
    destruct (ws !! (row, column)) as [x|] eqn:E; simpl.
    + exact E.
    + apply lookup_insert_eq.
  - apply bind_Ok_inv in H as (v & Hv & H). injection H as <-.
    exists v. split; [exact Hv | apply lookup_insert_eq].
Qed.

Lemma ws_setitem_other ws rc0 value ws' rc :
  ws_setitem ws rc0 value = Ok ws' -> rc <> rc0 -> ws' !! rc = ws !! rc.
Proof.
  unfold ws_setitem. intros H Hne.
  apply bind_Ok_inv in H as (v & _ & H). injection H as <-.
  apply lookup_insert_ne. congruence.
Qed.

Lemma ws_setitem_same ws rc0 value ws' :
  ws_setitem ws rc0 value = Ok ws' ->
  exists v, bind_value value = Ok v /\ ws' !! rc0 = Some v.
Proof.
  unfold ws_setitem. intros H.
  apply bind_Ok_inv in H as (v & Hv & H). injection H as <-.
  exists v. split; [exact Hv | apply lookup_insert_eq].
Qed.

Lemma fill_units_other data units : forall ws ws' rc,
  fill_units data units ws = Ok ws' ->
  ~ In rc (map snd units) -> ws' !! rc = ws !! rc.
Proof.
  induction units as [|[key cell] units IH]; intros ws ws' rc H Hn; simpl in H.
  - injection H as <-. reflexivity.
  - apply bind_Ok_inv in H as (v & _ & H).
    apply bind_Ok_inv in H as (ws1 & H1 & H).
    rewrite (IH _ _ _ H) by (intros Hin; apply Hn; right; exact Hin).
    apply (ws_setitem_other _ _ _ _ _ H1).
    intros ->. apply Hn. left. reflexivity.
Qed.

(** The unit cells after the loop of lines 46-47. *)
Lemma fill_units_same data units : forall ws ws' key cell,
  fill_units data units ws = Ok ws' ->
  NoDup (map snd units) ->
  In (key, cell) units ->
  exists v stored,
    py_get data key (JStr []) = Ok v
    /\ bind_value (if py_truthy v then v else JStr []) = Ok stored
    /\ ws' !! cell = Some stored.
Proof.
  induction units as [|[key0 cell0] units IH]; intros ws ws' key cell H Hnd Hin;
    [destruct Hin|].
  simpl in H, Hnd. apply NoDup_cons in Hnd as [Hfresh Hnd].
  apply bind_Ok_inv in H as (v & Hv & H).
  apply bind_Ok_inv in H as (ws1 & H1 & H).
  destruct Hin as [E|Hin].
  - injection E as -> ->.
    destruct (ws_setitem_same _ _ _ _ H1) as (stored & Hs & Hc).
    exists v, stored. split; [exact Hv|]. split; [exact Hs|].
    rewrite (fill_units_other _ _ _ _ _ H); [exact Hc|].
    intros Hin. apply Hfresh, list_elem_of_In, Hin.
  - apply (IH _ _ _ _ H Hnd Hin).
Qed.

Lemma write_fields_other r comp cols : forall ws ws' rc,
  write_fields r comp cols ws = Ok ws' ->
  (fst rc <> r \/ ~ In (snd rc) (map fst cols)) ->
  ws' !! rc = ws !! rc.
Proof.
  induction cols as [|[c field] cols IH]; intros ws ws' rc H Hn; simpl in H.
  - injection H as <-. reflexivity.
  - apply bind_Ok_inv in H as (v & _ & H).
    apply bind_Ok_inv in H as (ws1 & H1 & H).
    rewrite (IH _ _ _ H).
    + apply (ws_cell_other _ _ _ _ _ _ H1). destruct rc as [r0 c0].
      intros E. injection E as -> ->. simpl in Hn.
      destruct Hn as [Hn|Hn]; [congruence | apply Hn; left; reflexivity].
    + destruct Hn as [Hn|Hn]; [left; exact Hn | right].
      intros Hin. apply Hn. right. exact Hin.
Qed.

Lemma write_fields_same r comp cols : forall ws ws' c field,
  write_fields r comp cols ws = Ok ws' ->
  NoDup (map fst cols) ->
  In (c, field) cols ->
  exists v stored,
    py_get comp field JNull = Ok v
    /\ cell_after (ws !! (r, c)) v = Ok stored
    /\ ws' !! (r, c) = Some stored.
Proof.
  induction cols as [|[c0 field0] cols IH]; intros ws ws' c field H Hnd Hin;
    [destruct Hin|].
  simpl in H, Hnd. apply NoDup_cons in Hnd as [Hfresh Hnd].
  apply bind_Ok_inv in H as (v & Hv & H).
  apply bind_Ok_inv in H as (ws1 & H1 & H).
  destruct Hin as [E|Hin].
  - injection E as -> ->.
    destruct (ws_cell_same _ _ _ _ _ H1) as (stored & Hs & Hc).
    exists v, stored. split; [exact Hv|]. split; [exact Hs|].
    rewrite (write_fields_other _ _ _ _ _ _ H); [exact Hc|].
    right. simpl. intros Hin. apply Hfresh, list_elem_of_In, Hin.
  - destruct (IH _ _ _ _ H Hnd Hin) as (v1 & stored & Hg & Hs & Hc).
    exists v1, stored. split; [exact Hg|]. split; [|exact Hc].
    rewrite <- (ws_cell_other _ _ _ _ _ (r, c) H1); [exact Hs|].
    intros E. injection E as ->. apply Hfresh, list_elem_of_In.
    apply (in_map fst _ _ Hin).
Qed.

Lemma fill_component_fields i comp ws :
  fill_component i comp ws =
  write_fields (start_row + i) comp component_columns ws.
Proof.
  unfold fill_component, component_columns. cbn [write_fields].
  repeat (destruct (py_get comp _ JNull) as [?v|?e]; cbn [bind]; [|reflexivity];
          match goal with
          | |- context [ws_cell ?w ?r ?c ?x] =>
              destruct (ws_cell w r c x) as [?w|?e]; cbn [bind]; [|reflexivity]
          end).
  reflexivity.
Qed.

Lemma component_columns_range c :
  In c (map fst component_columns) <-> (3 <= c <= 8)%nat.
Proof.
  unfold component_columns. simpl. split.
  - intros [H|[H|[H|[H|[H|[H|[]]]]]]]; subst; lia.
  - intros [H1 H2].
    destruct c as [|[|[|[|[|[|[|[|[|c]]]]]]]]]; try lia; auto 10.
Qed.

Lemma component_columns_NoDup : NoDup (map fst component_columns).
Proof. compute_done. Qed.

Lemma units_map_NoDup : NoDup (map snd units_map).
Proof. compute_done. Qed.

Lemma fill_components_other comps : forall i ws ws' rc,
  fill_components i comps ws = Ok ws' ->
  (fst rc < start_row + i \/ start_row + i + length comps <= fst rc
   \/ snd rc < 3 \/ 8 < snd rc)%nat ->
  ws' !! rc = ws !! rc.
Proof.
  induction comps as [|comp comps IH]; intros i ws ws' rc H Hn; simpl in H.
  - injection H as <-. reflexivity.
  - apply bind_Ok_inv in H as (ws1 & H1 & H).
    rewrite (IH _ _ _ _ H) by (cbn [length] in Hn; lia).
    rewrite fill_component_fields in H1.
    apply (write_fields_other _ _ _ _ _ _ H1).
    destruct (decide (fst rc = (start_row + i)%nat)) as [E|E]; [right | left; exact E].
    rewrite component_columns_range. cbn [length] in Hn. lia.
Qed.

Lemma fill_components_same comps : forall i ws ws' k comp c field,
  fill_components i comps ws = Ok ws' ->
  comps !! k = Some comp ->
  In (c, field) component_columns ->
  exists v stored,
    py_get comp field JNull = Ok v
    /\ cell_after (ws !! ((start_row + i + k)%nat, c)) v = Ok stored
    /\ ws' !! ((start_row + i + k)%nat, c) = Some stored.
Proof.
  induction comps as [|comp0 comps IH]; intros i ws ws' k comp c field H Hk Hin;
    [discriminate|].
  simpl in H. apply bind_Ok_inv in H as (ws1 & H1 & H).
  rewrite fill_component_fields in H1.
  destruct k as [|k]; simpl in Hk.
  - injection Hk as ->. rewrite Nat.add_0_r.
    destruct (write_fields_same _ _ _ _ _ c field H1) as (v & stored & Hg & Hs & Hc);
      [apply component_columns_NoDup | exact Hin |].
    exists v, stored. split; [exact Hg|]. split; [exact Hs|].
    rewrite (fill_components_other _ _ _ _ _ H); [exact Hc | cbn [fst snd]; lia].
  - destruct (IH _ _ _ _ _ _ _ H Hk Hin) as (v & stored & Hg & Hs & Hc).
    replace (start_row + S i + k)%nat with (start_row + i + S k)%nat in Hs, Hc by lia.
    exists v, stored. split; [exact Hg|]. split; [|exact Hc].
    rewrite <- (write_fields_other _ _ _ _ _ (_, c) H1); [exact Hs|].
    left. cbn [fst]. lia.
Qed.

Lemma py_iter_len x rows : py_iter x = Ok rows -> py_len x = Ok (length rows).
Proof.
  destruct x; simpl; try discriminate; intros H; injection H as <-;
    rewrite ?length_map; reflexivity.
Qed.

Lemma py_getitem_get d k v dflt :
  py_get d k dflt = Ok v -> is_ok (py_getitem d k) -> py_getitem d k = Ok v.
Proof.
  destruct d; simpl; try discriminate. intros H [x Hx].
  destruct (assoc k o); [|discriminate]. injection H as <-. reflexivity.
Qed.

(** The rows written by lines 60-63. *)
Lemma write_end_of_tailpipe_cells data ws ws' :
  write_end_of_tailpipe data ws = Ok ws' ->
  exists comps n label depth stored,
    py_getitem data (py "components") = Ok comps
    /\ py_len comps = Ok n
    /\ bind_value (JStr (py "END OF TAILPIPE")) = Ok label
    /\ ws' !! ((start_row + n + 1)%nat, 4%nat) = Some label
    /\ py_getitem data (py "end_of_tailpipe_depth") = Ok depth
    /\ cell_after (ws !! ((start_row + n + 1)%nat, 6%nat)) depth = Ok stored
    /\ ws' !! ((start_row + n + 1)%nat, 6%nat) = Some stored
    /\ (forall rc, rc <> ((start_row + n + 1)%nat, 4%nat) ->
                   rc <> ((start_row + n + 1)%nat, 6%nat) ->
                   ws' !! rc = ws !! rc).
Proof.
  unfold write_end_of_tailpipe. intros H.
  apply bind_Ok_inv in H as (comps & Hc & H).
  apply bind_Ok_inv in H as (n & Hn & H).
  apply bind_Ok_inv in H as (ws1 & H1 & H).
  apply bind_Ok_inv in H as (depth & Hd & H2).
  destruct (ws_cell_same _ _ _ _ _ H1) as (label & Hl & Hl').
  destruct (ws_cell_same _ _ _ _ _ H2) as (stored & Hs & Hs').
  unfold cell_after in Hl. simpl in Hl.
  exists comps, n, label, depth, stored.
  split; [exact Hc|]. split; [exact Hn|]. split; [exact Hl|].
  split. { rewrite (ws_cell_other _ _ _ _ _ _ H2) by congruence. exact Hl'. }
  split; [exact Hd|].
  split. { rewrite <- (ws_cell_other _ _ _ _ _ _ H1) by congruence. exact Hs. }
  split; [exact Hs'|].
  intros rc N4 N6.
  rewrite (ws_cell_other _ _ _ _ _ _ H2) by exact N6.
  apply (ws_cell_other _ _ _ _ _ _ H1). exact N4.
Qed.

(** The steps of a successful run of [create_dhd_excel]. *)
Lemma create_dhd_excel_steps json_path template_path out ws :
  create_dhd_excel json_path template_path = Ok (out, ws) ->
  exists data text ws0 ws1 ws2 comps rows ws3,
    read_json json_path = Ok data
    /\ py_getitem data (py "well_name") = Ok (JStr text)
    /\ out = py "/content/DHD_" ++ slugify text ++ py ".xlsx"
    /\ workbooks template_path = Ok ws0
    /\ ws_setitem ws0 (2, 4)%nat (JStr text) = Ok ws1
    /\ fill_units data units_map ws1 = Ok ws2
    /\ py_getitem data (py "components") = Ok comps
    /\ py_iter comps = Ok rows
    /\ fill_components 0 rows ws2 = Ok ws3
    /\ write_end_of_tailpipe data ws3 = Ok ws.
Proof.
  unfold create_dhd_excel. intros H.
  apply bind_Ok_inv in H as ([[data out0] ws3] & Hf & H).
  apply bind_Ok_inv in H as (ws4 & H4 & H).
  apply bind_Ok_inv in H as (ws5 & H5 & H). injection H as <- <-.
  rewrite (write_end_of_tailpipe_depth_idempotent _ _ _ H4) in H5.
  injection H5 as <-.
  unfold fill_template in Hf.
  apply bind_Ok_inv in Hf as (data' & Hd & Hf).
  apply bind_Ok_inv in Hf as (wn & Hwn & Hf).
  apply bind_Ok_inv in Hf as (slug & Hslug & Hf).
  apply bind_Ok_inv in Hf as (ws0 & Hws0 & Hf).
  apply bind_Ok_inv in Hf as (v & Hv & Hf).
  apply bind_Ok_inv in Hf as (ws1 & Hws1 & Hf).
  apply bind_Ok_inv in Hf as (ws2 & Hws2 & Hf).
  apply bind_Ok_inv in Hf as (comps & Hcomps & Hf).
  apply bind_Ok_inv in Hf as (rows & Hrows & Hf).
  apply bind_Ok_inv in Hf as (ws3' & Hws3 & Hf).
  injection Hf as -> <- ->.
  destruct wn as [| | |text| |]; try discriminate. injection Hslug as <-.
  rewrite (py_get_of_getitem _ _ _ (JStr []) Hwn) in Hv. injection Hv as <-.
  destruct (write_end_of_tailpipe_cells _ _ _ H4)
    as (comps' & n & _ & _ & _ & Hc' & _).
  rewrite (py_get_of_getitem _ _ _ (JArr []) Hc') in Hcomps. injection Hcomps as <-.
  exists data, text, ws0, ws1, ws2, comps', rows, ws3.
  repeat split; assumption.
Qed.

Ltac nat_bool_to_prop :=
  repeat rewrite ?orb_true_iff, ?orb_false_iff, ?andb_true_iff, ?andb_false_iff,
    ?Nat.eqb_eq, ?Nat.eqb_neq, ?Nat.leb_le, ?Nat.leb_gt, ?Nat.ltb_lt, ?Nat.ltb_ge,
    ?bool_decide_eq_true, ?bool_decide_eq_false.

Lemma units_map_cells rc :
  In rc (map snd units_map) <-> (fst rc = 5 /\ 5 <= snd rc <= 8)%nat.
Proof.
  unfold units_map. simpl. split.
  - intros [H|[H|[H|[H|[]]]]]; subst; simpl; lia.
  - destruct rc as [r c]. simpl. intros [-> [H1 H2]].
    destruct c as [|[|[|[|[|[|[|[|[|c]]]]]]]]]; try lia; auto 10.
Qed.

Lemma written_false n rc :
  written n rc = false ->
  rc <> (2, 4)%nat
  /\ ~ In rc (map snd units_map)
  /\ (fst rc < start_row + 0 \/ start_row + 0 + n <= fst rc
      \/ snd rc < 3 \/ 8 < snd rc)%nat
  /\ rc <> ((start_row + n + 1)%nat, 4%nat)
  /\ rc <> ((start_row + n + 1)%nat, 6%nat).
Proof.
  unfold written. rewrite units_map_cells. destruct rc as [r c]. cbn [fst snd].
  nat_bool_to_prop. unfold start_row. intros (((H1 & H2) & H3) & H4).
  split; [exact H1|]. split; [lia|]. split; [lia|].
  split; intros E; injection E as -> ->; lia.
Qed.

(** The header rows do not reach the component table. *)
Lemma header_frame data ws0 v ws1 ws2 rc :
  ws_setitem ws0 (2, 4)%nat v = Ok ws1 ->
  fill_units data units_map ws1 = Ok ws2 ->
  (start_row <= fst rc)%nat ->
  ws2 !! rc = ws0 !! rc.
Proof.
  intros H1 H2 Hr.
  rewrite (fill_units_other _ _ _ _ _ H2)
    by (rewrite units_map_cells; unfold start_row in Hr; lia).
  apply (ws_setitem_other _ _ _ _ _ H1).
  intros ->. unfold start_row in Hr. simpl in Hr. lia.
Qed.

(** X11. A run of [create_dhd_excel] that succeeds has read a document
    with a well name that is a string, a component list and an
    end-of-tailpipe depth, and its output path is "/content/DHD_", the slug
    of the well name, ".xlsx". *)
Theorem create_dhd_excel_requires json_path template_path out ws :
  create_dhd_excel json_path template_path = Ok (out, ws) ->
  exists data text comps depth,
    read_json json_path = Ok data
    /\ py_getitem data (py "well_name") = Ok (JStr text)
    /\ py_getitem data (py "components") = Ok comps
    /\ py_getitem data (py "end_of_tailpipe_depth") = Ok depth
    /\ out = py "/content/DHD_" ++ slugify text ++ py ".xlsx".
Proof.
  intros H.
  destruct (create_dhd_excel_steps _ _ _ _ H)
    as (data & text & ws0 & ws1 & ws2 & comps & rows & ws3
        & Hd & Hwn & Hout & _ & _ & _ & Hc & _ & _ & Ht).
  destruct (write_end_of_tailpipe_cells _ _ _ Ht)
    as (_ & _ & _ & depth & _ & _ & _ & _ & _ & Hdepth & _).
  exists data, text, comps, depth. repeat split; assumption.
Qed.

(** X12. [create_dhd_excel] leaves every cell of the template as it was,
    except D2, E5 to H5, columns 3 to 8 of the component rows and columns 4
    and 6 of the end-of-tailpipe row.  That row is row
    [start_row + n + 1] for [n] components: row [start_row + n], between the
    last component and the end-of-tailpipe line, is not written. *)
Theorem create_dhd_excel_frame json_path template_path out ws :
  create_dhd_excel json_path template_path = Ok (out, ws) ->
  exists data comps n ws0,
    read_json json_path = Ok data
    /\ py_getitem data (py "components") = Ok comps
    /\ py_len comps = Ok n
    /\ workbooks template_path = Ok ws0
    /\ (forall rc, written n rc = false -> ws !! rc = ws0 !! rc)
    /\ (forall c, ws !! ((start_row + n)%nat, c) = ws0 !! ((start_row + n)%nat, c)).
Proof.
  intros H.
  destruct (create_dhd_excel_steps _ _ _ _ H)
    as (data & text & ws0 & ws1 & ws2 & comps & rows & ws3
        & Hd & _ & _ & Hws0 & H1 & H2 & Hc & Hrows & H3 & Ht).
  destruct (write_end_of_tailpipe_cells _ _ _ Ht)
    as (comps' & n & _ & _ & _ & Hc' & Hn & _ & _ & _ & _ & _ & Hother).
  rewrite Hc in Hc'. injection Hc' as <-.
  pose proof (py_iter_len _ _ Hrows) as Hlen. rewrite Hn in Hlen.
  injection Hlen as ->.
  assert (F : forall rc, written (length rows) rc = false -> ws !! rc = ws0 !! rc).
  { intros rc Hw. apply written_false in Hw as (N1 & N2 & N3 & N4 & N5).
    rewrite (Hother rc N4 N5).
    rewrite (fill_components_other _ _ _ _ _ H3 N3).
    rewrite (fill_units_other _ _ _ _ _ H2 N2).
    apply (ws_setitem_other _ _ _ _ _ H1 N1). }
  exists data, comps, (length rows), ws0.
  repeat split; try assumption.
  intros c. apply F. unfold written. cbn [fst snd].
  destruct (bool_decide _) eqn:E1;
    [apply bool_decide_eq_true in E1; injection E1 as E1 _;
     unfold start_row in E1; lia|].
  destruct (start_row + length rows =? 5)%nat eqn:E2;
    [apply Nat.eqb_eq in E2; unfold start_row in E2; lia|].
  destruct (start_row + length rows <? start_row + length rows)%nat eqn:E3;
    [apply Nat.ltb_lt in E3; lia|].
  destruct (start_row + length rows =? start_row + length rows + 1)%nat eqn:E4;
    [apply Nat.eqb_eq in E4; lia|].
  rewrite andb_false_r. reflexivity.
Qed.

(** X13. After a successful run the end-of-tailpipe row, row
    [start_row + n + 1], holds the label "END OF TAILPIPE" in column 4 and,
    in column 6, the depth of the document, or what the template had there
    when the depth is [None]. *)
Theorem create_dhd_excel_tailpipe json_path template_path out ws :
  create_dhd_excel json_path template_path = Ok (out, ws) ->
  exists data comps n depth ws0 label stored,
    read_json json_path = Ok data
    /\ py_getitem data (py "components") = Ok comps
    /\ py_len comps = Ok n
    /\ py_getitem data (py "end_of_tailpipe_depth") = Ok depth
    /\ workbooks template_path = Ok ws0
    /\ bind_value (JStr (py "END OF TAILPIPE")) = Ok label
    /\ ws !! ((start_row + n + 1)%nat, 4%nat) = Some label
    /\ cell_after (ws0 !! ((start_row + n + 1)%nat, 6%nat)) depth = Ok stored
    /\ ws !! ((start_row + n + 1)%nat, 6%nat) = Some stored.
Proof.
  intros H.
  destruct (create_dhd_excel_steps _ _ _ _ H)
    as (data & text & ws0 & ws1 & ws2 & comps & rows & ws3
        & Hd & _ & _ & Hws0 & H1 & H2 & Hc & Hrows & H3 & Ht).
  destruct (write_end_of_tailpipe_cells _ _ _ Ht)
    as (comps' & n & label & depth & stored
        & Hc' & Hn & Hl & Hl' & Hdepth & Hs & Hs' & _).
  rewrite Hc in Hc'. injection Hc' as <-.
  pose proof (py_iter_len _ _ Hrows) as Hlen. rewrite Hn in Hlen.
  injection Hlen as ->.
  exists data, comps, (length rows), depth, ws0, label, stored.
  repeat split; try assumption.
  rewrite <- (header_frame _ _ _ _ _ (_, 6%nat) H1 H2) by (cbn [fst]; lia).
  rewrite <- (fill_components_other _ _ _ _ _ H3); [exact Hs|].
  cbn [fst]. lia.
Qed.

(** X14. After a successful run cell D2 holds the well name, and each of
    E5, F5, G5, H5 holds its unit field of the document, or the empty string
    when that field is missing, [None] or otherwise false. *)
Theorem create_dhd_excel_header json_path template_path out ws :
  create_dhd_excel json_path template_path = Ok (out, ws) ->
  exists data text name_stored,
    read_json json_path = Ok data
    /\ py_getitem data (py "well_name") = Ok (JStr text)
    /\ bind_value (JStr text) = Ok name_stored
    /\ ws !! (2, 4)%nat = Some name_stored
    /\ (forall key cell,
          In (key, cell) units_map ->
          exists v stored,
            py_get data key (JStr []) = Ok v
            /\ bind_value (if py_truthy v then v else JStr []) = Ok stored
            /\ ws !! cell = Some stored).
Proof.
  intros H.
  destruct (create_dhd_excel_steps _ _ _ _ H)
    as (data & text & ws0 & ws1 & ws2 & comps & rows & ws3
        & Hd & Hwn & _ & Hws0 & H1 & H2 & Hc & Hrows & H3 & Ht).
  destruct (write_end_of_tailpipe_cells _ _ _ Ht)
    as (_ & n & _ & _ & _ & _ & _ & _ & _ & _ & _ & _ & Hother).
  assert (Later : forall rc, (fst rc < start_row)%nat -> ws !! rc = ws2 !! rc).
  { intros rc Hr.
    rewrite Hother by (intros ->; cbn [fst] in Hr; lia).
    apply (fill_components_other _ _ _ _ _ H3). lia. }
  destruct (ws_setitem_same _ _ _ _ H1) as (name_stored & Hb & Hcell).
  exists data, text, name_stored.
  split; [exact Hd|]. split; [exact Hwn|]. split; [exact Hb|]. split.
  - rewrite Later by (unfold start_row; simpl; lia).
    rewrite (fill_units_other _ _ _ _ _ H2); [exact Hcell|].
    rewrite units_map_cells. simpl. lia.
  - intros key cell Hin.
    destruct (fill_units_same _ _ _ _ _ _ H2 units_map_NoDup Hin)
      as (v & stored & Hv & Hs & Hcell').
    exists v, stored. split; [exact Hv|]. split; [exact Hs|].
    rewrite Later; [exact Hcell'|].
    assert (Hu : In cell (map snd units_map)) by (apply (in_map snd _ _ Hin)).
    apply units_map_cells in Hu. unfold start_row. lia.
Qed.

(** X15. After a successful run the row of the component of index [k],
    row [start_row + k], holds in columns 3 to 8 the fields item_id, name,
    length, depth, inner_diameter and outer_diameter of that component; a
    field that is missing or [None] leaves in its cell what the template had
    there. *)
Theorem create_dhd_excel_rows json_path template_path out ws :
  create_dhd_excel json_path template_path = Ok (out, ws) ->
  exists data comps rows ws0,
    read_json json_path = Ok data
    /\ py_getitem data (py "components") = Ok comps
    /\ py_iter comps = Ok rows
    /\ workbooks template_path = Ok ws0
    /\ (forall k comp c field,
          rows !! k = Some comp ->
          In (c, field) component_columns ->
          exists v stored,
            py_get comp field JNull = Ok v
            /\ cell_after (ws0 !! ((start_row + k)%nat, c)) v = Ok stored
            /\ ws !! ((start_row + k)%nat, c) = Some stored).
Proof.
  intros H.
  destruct (create_dhd_excel_steps _ _ _ _ H)
    as (data & text & ws0 & ws1 & ws2 & comps & rows & ws3
        & Hd & _ & _ & Hws0 & H1 & H2 & Hc & Hrows & H3 & Ht).
  destruct (write_end_of_tailpipe_cells _ _ _ Ht)
    as (comps' & n & _ & _ & _ & Hc' & Hn & _ & _ & _ & _ & _ & Hother).
  rewrite Hc in Hc'. injection Hc' as <-.
  pose proof (py_iter_len _ _ Hrows) as Hlen. rewrite Hn in Hlen.
  injection Hlen as ->.
  exists data, comps, rows, ws0. repeat split; try assumption.
  intros k comp c field Hk Hin.
  destruct (fill_components_same _ _ _ _ _ _ _ _ H3 Hk Hin)
    as (v & stored & Hv & Hs & Hcell).
  rewrite Nat.add_0_r in Hs, Hcell.
  exists v, stored. split; [exact Hv|]. split.
  - rewrite <- (header_frame _ _ _ _ _ (_, c) H1 H2) by (cbn [fst]; lia).
    exact Hs.
  - apply lookup_lt_Some in Hk.
    rewrite Hother; [exact Hcell | |]; intros E; injection E as E _; lia.
Qed.

(** ** Further properties of [make_component_dict] *)

Lemma add_key_distinct ks k :
  keys_distinct ks = true -> keys_distinct (add_key ks k) = true.
Proof.
  unfold add_key. destruct (existsb (fun k0 => key_eqb k0 k) ks) eqn:E; [auto|].
  induction ks as [|k0 ks IH]; intros H; simpl; [reflexivity|].
  simpl in E, H. apply orb_false_iff in E as [E0 E].
  apply andb_true_iff in H as [H0 H].
  rewrite forallb_app, H0, (IH E H). simpl. rewrite E0. reflexivity.
Qed.

(** The keys of the dict stay pairwise distinct and hashable. *)
Lemma build_dict_keys keep_none rows : forall d0 d,
  build_dict keep_none rows d0 = Ok d ->
  keys_distinct (map fst d0) = true ->
  forallb hashable (map fst d0) = true ->
  keys_distinct (map fst d) = true /\ forallb hashable (map fst d) = true.
Proof.
  induction rows as [|row rows IH]; intros d0 d H Hk Hh; simpl in H.
  - injection H as <-. split; assumption.
  - apply bind_Ok_inv in H as (p & _ & H).
    apply bind_Ok_inv in H as (d1 & H1 & H).
    apply (IH _ _ H); destruct p as [[k v]|]; try (injection H1 as <-; assumption);
      unfold dict_setitem in H1; destruct (hashable k) eqn:Ek; try discriminate;
      injection H1 as <-; rewrite keys_dict_set.
    + apply add_key_distinct, Hk.
    + unfold add_key. destruct (existsb _ _); [exact Hh|].
      rewrite forallb_app, Hh. simpl. rewrite Ek. reflexivity.
Qed.

Lemma build_dict_length keep_none rows : forall d0 d,
  build_dict keep_none rows d0 = Ok d ->
  (length d <= length d0 + length rows)%nat.
Proof.
  induction rows as [|row rows IH]; intros d0 d H; simpl in H.
  - injection H as <-. simpl. lia.
  - apply bind_Ok_inv in H as (p & _ & H).
    apply bind_Ok_inv in H as (d1 & H1 & H).
    apply IH in H. simpl.
    assert (length d1 <= S (length d0))%nat; [|lia].
    destruct p as [[k v]|]; [|injection H1 as <-; lia].
    unfold dict_setitem in H1. destruct (hashable k); [|discriminate].
    injection H1 as <-.
    rewrite <- (length_map fst), keys_dict_set, <- (length_map fst d0).
    unfold add_key. destruct (existsb _ _); [lia|].
    rewrite length_app. simpl. lia.
Qed.

Lemma make_component_dict_keys_aux json_path keep_none d :
  make_component_dict json_path keep_none = Ok d ->
  keys_distinct (map fst d) = true /\ forallb hashable (map fst d) = true.
Proof.
  unfold make_component_dict. intros H.
  apply bind_Ok_inv in H as (data & Hd & H).
  apply bind_Ok_inv in H as (comps & Hc & H).
  apply bind_Ok_inv in H as (rows & Hr & H).
  apply (build_dict_keys _ _ _ _ H eq_refl eq_refl).
Qed.

(** X16. The dict returned by [make_component_dict] has pairwise distinct,
    hashable keys and no more entries than the document has component
    rows. *)
Theorem make_component_dict_keys json_path keep_none d :
  make_component_dict json_path keep_none = Ok d ->
  keys_distinct (map fst d) = true
  /\ forallb hashable (map fst d) = true
  /\ exists data comps rows,
       read_json json_path = Ok data
       /\ py_getitem data (py "components") = Ok comps
       /\ py_iter comps = Ok rows
       /\ (length d <= length rows)%nat.
Proof.
  unfold make_component_dict. intros H.
  apply bind_Ok_inv in H as (data & Hd & H).
  apply bind_Ok_inv in H as (comps & Hc & H).
  apply bind_Ok_inv in H as (rows & Hr & H).
  destruct (build_dict_keys _ _ _ _ H eq_refl eq_refl) as [K1 K2].
  split; [exact K1|]. split; [exact K2|].
  exists data, comps, rows. repeat split; try assumption.
  apply build_dict_length in H. simpl in H. exact H.
Qed.

Lemma key_eqb_None_l k : key_eqb JNull k = true -> k = JNull.
Proof. rewrite key_eqb_sym. apply key_eqb_None. Qed.

Lemma filter_dict_set_None d v :
  List.filter (fun p => negb (is_None (fst p))) (dict_set d JNull v)
  = List.filter (fun p => negb (is_None (fst p))) d.
Proof.
  induction d as [|[k0 v0] d IH]; simpl; [reflexivity|].
  destruct (key_eqb k0 JNull) eqn:E; simpl.
  - apply key_eqb_None in E. subst k0. reflexivity.
  - rewrite IH. reflexivity.
Qed.

Lemma filter_dict_set_other d k v :
  is_None k = false ->
  List.filter (fun p => negb (is_None (fst p))) (dict_set d k v)
  = dict_set (List.filter (fun p => negb (is_None (fst p))) d) k v.
Proof.
  intros Hk. induction d as [|[k0 v0] d IH]; simpl.
  - rewrite Hk. reflexivity.
  - destruct (key_eqb k0 k) eqn:E; simpl.
    + destruct (is_None k0) eqn:E0; simpl.
      * destruct k0; try discriminate. apply key_eqb_None_l in E.
        subst k. discriminate.
      * rewrite E. reflexivity.
    + rewrite IH. destruct (is_None k0); simpl; [reflexivity|].
      rewrite E. reflexivity.
Qed.

Lemma build_dict_keep_none rows : forall d0 d,
  build_dict true rows d0 = Ok d ->
  build_dict false rows (List.filter (fun p => negb (is_None (fst p))) d0)
  = Ok (List.filter (fun p => negb (is_None (fst p))) d).
Proof.
  induction rows as [|row rows IH]; intros d0 d H; simpl in H.
  - injection H as <-. reflexivity.
  - apply bind_Ok_inv in H as (p & Hp & H).
    apply bind_Ok_inv in H as (d1 & H1 & H).
    unfold component_pair in Hp. simpl in Hp.
    apply bind_Ok_inv in Hp as (i & Hi & Hp).
    apply bind_Ok_inv in Hp as (m & Hm & Hp). injection Hp as <-.
    unfold dict_setitem in H1. destruct (hashable i) eqn:Eh; [|discriminate].
    injection H1 as <-.
    simpl. unfold component_pair. rewrite Hi. simpl.
    destruct (is_None i) eqn:Ei; simpl.
    + destruct i; try discriminate.
      rewrite <- (filter_dict_set_None d0 m). apply IH, H.
    + rewrite Hm. simpl. unfold dict_setitem. rewrite Eh. simpl.
      rewrite <- (filter_dict_set_other _ _ _ Ei). apply IH, H.
Qed.

(** X17. When [make_component_dict] succeeds with [keep_none=True], it
    succeeds with [keep_none=False] too, and what it then returns is the
    first dict without its [None] key. *)
Theorem make_component_dict_keep_none json_path d :
  make_component_dict json_path true = Ok d ->
  make_component_dict json_path false
  = Ok (List.filter (fun p => negb (is_None (fst p))) d).
Proof.
  unfold make_component_dict. intros H.
  apply bind_Ok_inv in H as (data & Hd & H).
  apply bind_Ok_inv in H as (comps & Hc & H).
  apply bind_Ok_inv in H as (rows & Hr & H).
  rewrite Hd. simpl. rewrite Hc. simpl. rewrite Hr. simpl.
  apply (build_dict_keep_none _ [] _ H).
Qed.

Lemma build_dict_app keep_none r1 : forall r2 d,
  build_dict keep_none (r1 ++ r2) d =
  (d1 <- build_dict keep_none r1 d ;; build_dict keep_none r2 d1).
Proof.
  induction r1 as [|row r1 IH]; intros r2 d; simpl; [reflexivity|].
  destruct (component_pair keep_none row) as [p|e]; simpl; [|reflexivity].
  destruct (match p with
            | Some (item_id, mapped) => dict_setitem d item_id mapped
            | None => Ok d
            end); simpl; [apply IH | reflexivity].
Qed.

(** X18. A record without the key [item_id] makes [make_component_dict]
    raise [KeyError("item_id")], whatever [keep_none] is.  A record whose
    [item_id] is [None] and that has no [mapped_name] raises
    [KeyError("mapped_name")] with [keep_none=True], but is passed over
    with [keep_none=False], its [mapped_name] never being read. *)
Theorem make_component_dict_missing_fields
    json_path data rows1 pairs1 fields rows2 pairs2 :
  read_json json_path = Ok data ->
  py_getitem data (py "components") = Ok (JArr (rows1 ++ JObj fields :: rows2)) ->
  Forall2 is_record rows1 pairs1 ->
  forallb (fun p => hashable (fst p)) pairs1 = true ->
  (assoc (py "item_id") fields = None ->
   forall keep_none,
     make_component_dict json_path keep_none = Raise (KeyError (py "item_id")))
  /\ (assoc (py "item_id") fields = Some JNull ->
      assoc (py "mapped_name") fields = None ->
      make_component_dict json_path true = Raise (KeyError (py "mapped_name"))
      /\ (Forall2 is_record rows2 pairs2 ->
          forallb (fun p => hashable (fst p)) pairs2 = true ->
          make_component_dict json_path false
          = Ok (dict_of [] (kept_pairs false (pairs1 ++ pairs2))))).
Proof.
  intros Hd Hc Hr1 Hh1.
  assert (Pre : forall keep_none,
    make_component_dict json_path keep_none =
    build_dict keep_none (JObj fields :: rows2)
      (dict_of [] (kept_pairs keep_none pairs1))).
  { intros keep_none. unfold make_component_dict. rewrite Hd. simpl.
    rewrite Hc. simpl. rewrite build_dict_app.
    rewrite (build_dict_records keep_none _ _ Hr1 Hh1). reflexivity. }
  split.
  - intros Hi keep_none. rewrite Pre. simpl. unfold component_pair. simpl.
    rewrite Hi. destruct keep_none; reflexivity.
  - intros Hi Hm. split.
    + rewrite Pre. simpl. unfold component_pair. simpl. rewrite Hi, Hm.
      reflexivity.
    + intros Hr2 Hh2. rewrite Pre. simpl. unfold component_pair. simpl.
      rewrite Hi. simpl.
      rewrite (build_dict_records false _ _ Hr2 Hh2).
      unfold kept_pairs, dict_of. rewrite List.filter_app, fold_left_app. reflexivity.
Qed.

Lemma dict_get_own d : forall k v,
  keys_distinct (map fst d) = true ->
  forallb hashable (map fst d) = true ->
  In (k, v) d -> dict_get d k = Some v.
Proof.
  induction d as [|[k0 v0] d IH]; intros k v Hk Hh Hin; [destruct Hin|].
  simpl in Hk, Hh. apply andb_true_iff in Hk as [Hk0 Hk].
  apply andb_true_iff in Hh as [Hh0 Hh]. simpl.
  destruct Hin as [E|Hin].
  - injection E as -> ->. unfold key_eqb. unfold hashable in Hh0.
    destruct (hash_key k); [|discriminate].
    rewrite bool_decide_eq_true_2 by reflexivity. reflexivity.
  - rewrite forallb_forall in Hk0.
    specialize (Hk0 k (in_map fst _ _ Hin)). simpl in Hk0.
    apply negb_true_iff in Hk0. rewrite Hk0. apply IH; assumption.
Qed.

(** X19. On component records, the order the pipeline hands to the
    compositor has one entry for every distinct [item_id] ([None] counting
    as one), in the order of first occurrence, the entry being the
    [mapped_name] of the last record with that [item_id]: records that share
    an [item_id], or that all lack one, give a single entry. *)
Theorem component_output_spec json_path data rows pairs :
  read_json json_path = Ok data ->
  py_getitem data (py "components") = Ok (JArr rows) ->
  Forall2 is_record rows pairs ->
  forallb (fun p => hashable (fst p)) pairs = true ->
  exists out,
    component_output json_path = Ok out
    /\ Forall2 (fun k v => last_value k pairs = Some v)
         (first_keys (map fst pairs)) out
    /\ (keys_distinct (map fst pairs) = true -> out = map snd pairs).
Proof.
  intros Hd Hc Hr Hh.
  assert (E : make_component_dict json_path true = Ok (dict_of [] pairs)).
  { unfold make_component_dict. rewrite Hd. simpl. rewrite Hc. simpl.
    apply (build_dict_records true _ _ Hr Hh). }
  destruct (make_component_dict_keys_aux json_path true _ E) as [K1 K2].
  exists (map snd (dict_of [] pairs)). split; [|split].
  - unfold component_output. rewrite E. reflexivity.
  - assert (Ek : first_keys (map fst pairs) = map fst (dict_of [] pairs))
      by (rewrite dict_of_keys; reflexivity).
    rewrite Ek. clear Ek.
    assert (G : forall k v, In (k, v) (dict_of [] pairs) ->
              last_value k pairs = Some v).
    { intros k v Hin.
      assert (El : last_value k pairs = dict_get (dict_of [] pairs) k)
        by (rewrite dict_of_get; reflexivity).
      rewrite El. apply dict_get_own; assumption. }
    revert G. generalize (dict_of [] pairs). intros d G.
    induction d as [|[k v] d IHd]; simpl; constructor.
    + apply G. left. reflexivity.
    + apply IHd. intros k' v' Hin. apply G. right. exact Hin.
  - intros Hk. rewrite dict_of_distinct; [reflexivity | exact Hk |].
    intros k0 p [].
Qed.

(** ** Further properties of [official_component_dict] *)

(** X20. In the registry of a folder without glob metacharacters every
    value leads back to its key: the value is the listed directory joined
    with a visible name of it, and that name without its extension is the
    key. *)
Theorem official_component_dict_round_trip folder key path :
  has_magic folder = false ->
  forallb slash_free (visible_names folder) = true ->
  official_component_dict folder !! key = Some path ->
  fst (os_path_splitext (os_path_basename path)) = key
  /\ In (os_path_basename path) (visible_names folder)
  /\ path = os_path_join (registry_dir folder) (os_path_basename path).
Proof using fnmatch_star.
  intros Hm Hs H.
  rewrite (official_component_dict_fold _ Hm Hs) in H.
  apply (fold_insert_lookup stem (os_path_join (registry_dir folder))) in H.
  destruct H as [(l1 & name & l2 & E & Hk & Hv & _) | [_ H]];
    [|rewrite lookup_empty in H; discriminate].
  assert (Hin : In name (visible_names folder)).
  { rewrite E. apply in_or_app. right. left. reflexivity. }
  assert (Hn : slash_free name = true).
  { rewrite forallb_forall in Hs. apply Hs, Hin. }
  subst path. rewrite (basename_join _ _ Hn).
  split; [exact Hk|]. split; [exact Hin | reflexivity].
Qed.

(** X21. A trailing slash on the folder path does not change the
    registry. *)
Theorem official_component_dict_trailing_slash y c :
  is_slash c = false ->
  official_component_dict ((y ++ [c]) ++ py "/") = official_component_dict (y ++ [c]).
Proof.
  intros Hc. unfold official_component_dict.
  assert (E : os_path_join ((y ++ [c]) ++ py "/") (py "*")
              = os_path_join (y ++ [c]) (py "*")).
  { rewrite (join_plain y c (py "*") Hc eq_refl).
    unfold os_path_join. simpl starts_with_slash. cbv iota.
    change ((y ++ [c]) ++ py "/") with ((y ++ [c]) ++ [47%N]).
    unfold str. rewrite snoc_not_nil, snoc_ends_with_slash. simpl.
    rewrite <- app_assoc. reflexivity. }
  rewrite E. reflexivity.
Qed.

(** ** The registry and the compositor together *)

Lemma present_only_empty (order : list (option str)) :
  (forall label, In label (present_only (∅ : gmap str source) order) -> label = None)
  /\ Z.of_nat (length (present_only (∅ : gmap str source) order)) = spacers order.
Proof.
  unfold present_only. induction order as [|[name|] order [IH1 IH2]]; simpl.
  - split; [intros label [] | reflexivity].
  - rewrite lookup_empty. split; assumption.
  - split; [intros label [<-|H]; [reflexivity | apply IH1, H] | lia].
Qed.


End DHD.

Arguments Image {pixels} mode width height data.
Arguments mode {pixels} i.
Arguments width {pixels} i.
Arguments height {pixels} i.
Arguments data {pixels} i.
Arguments Canvas {pixels} cw ch layers.
Arguments cw {pixels} c.
Arguments ch {pixels} c.
Arguments layers {pixels} c.
Arguments SrcPath {pixels} p.
Arguments SrcImage {pixels} im.
Arguments demo_image {pixels} w h d.
Arguments convert_RGBA {pixels} convert_data im.
Arguments stack_dhd {pixels} convert_data convertible image_files order mapping
  dhd_image_output_path gap_pixels skip_missing.
Arguments stack_dhd_call {pixels} convert_data convertible image_files order mapping
  dhd_image_output_path gap_pixels skip_missing.
Arguments resolved_images {pixels} convert_data convertible image_files mapping order.
Arguments sum_heights {pixels} ims.
Arguments max_width {pixels} ims.
Arguments width_as_specified {pixels} ims.
Arguments all_present {pixels} mapping order.
Arguments within {pixels} w h layer.
Arguments centered {pixels} w layer.
Arguments stacked {pixels} y ls.
Arguments pipeline_images scandir fnmatch glob_dirs {pixels} convert_data convertible
  image_files
  component_output dhd_folder dhd_image_path.

(** ** Instances *)

Lemma demo_all_present (w h : N) :
  all_present {[ py "a" := SrcImage (demo_image w h tt) ]}
    [None; Some (py "a")].
Proof.
  intros name [H|[H|[]]]; [discriminate|].
  injection H as <-. rewrite lookup_singleton_eq. eexists; reflexivity.
Qed.

(** Two images of different sizes, "a" of 3x5 and "b" of 6x2, stacked as
    "a", a spacer, "b", "a". *)
Lemma demo_stack_two :
  stack_dhd (fun _ d => d) (fun _ => true) (no_files unit)
    [Some (py "a"); None; Some (py "b"); Some (py "a")]
    (<[ py "b" := SrcImage (demo_image 6 2 tt) ]>
       {[ py "a" := SrcImage (demo_image 3 5 tt) ]}) (py "stack.png") 6 false
  = Ok (py "stack.png",
        {| cw := 6; ch := 18;
           layers := [ (convert_RGBA (fun _ d => d) (demo_image 3 5 tt), (1, 0));
                       (convert_RGBA (fun _ d => d) (demo_image 6 2 tt), (0, 11));
                       (convert_RGBA (fun _ d => d) (demo_image 3 5 tt), (1, 13)) ] |}).
Proof.
  assert (Ha : (<[ py "b" := SrcImage (demo_image 6 2 tt) ]>
                  {[ py "a" := SrcImage (demo_image 3 5 tt) ]}
                  : gmap str (source unit)) !! py "a"
               = Some (SrcImage (demo_image 3 5 tt))).
  { rewrite lookup_insert_ne by discriminate. apply lookup_singleton_eq. }
  assert (Hb : (<[ py "b" := SrcImage (demo_image 6 2 tt) ]>
                  {[ py "a" := SrcImage (demo_image 3 5 tt) ]}
                  : gmap str (source unit)) !! py "b"
               = Some (SrcImage (demo_image 6 2 tt))).
  { apply lookup_insert_eq. }
  unfold stack_dhd. cbn [pass1 pass1_step bind]. rewrite Ha, Hb. reflexivity.
Qed.

Lemma demo_resolved_two :
  resolved_images (fun _ d => d) (fun _ => true) (no_files unit)
    (<[ py "b" := SrcImage (demo_image 6 2 tt) ]>
       {[ py "a" := SrcImage (demo_image 3 5 tt) ]})
    [Some (py "a"); None; Some (py "b"); Some (py "a")]
  = [ convert_RGBA (fun _ d => d) (demo_image 3 5 tt);
      convert_RGBA (fun _ d => d) (demo_image 6 2 tt);
      convert_RGBA (fun _ d => d) (demo_image 3 5 tt) ].
Proof.
  unfold resolved_images. cbn [omap list_omap resolve].
  rewrite lookup_insert_eq, lookup_insert_ne by discriminate.
  rewrite lookup_singleton_eq. reflexivity.
Qed.

Lemma demo_present_two :
  all_present (<[ py "b" := SrcImage (demo_image 6 2 tt) ]>
                 {[ py "a" := SrcImage (demo_image 3 5 tt) ]})
    [Some (py "a"); None; Some (py "b"); Some (py "a")].
Proof.
  intros name [H|[H|[H|[H|[]]]]]; try discriminate; injection H as <-.
  - rewrite lookup_insert_ne by discriminate. rewrite lookup_singleton_eq.
    eexists; reflexivity.
  - rewrite lookup_insert_eq. eexists; reflexivity.
  - rewrite lookup_insert_ne by discriminate. rewrite lookup_singleton_eq.
    eexists; reflexivity.
Qed.

Lemma stack_dhd_height_witness :
  all_present (<[ py "b" := SrcImage (demo_image 6 2 tt) ]>
                 {[ py "a" := SrcImage (demo_image 3 5 tt) ]})
    [Some (py "a"); None; Some (py "b"); Some (py "a")]
  /\ 18 = sum_heights
            (resolved_images (fun _ d => d) (fun _ => true) (no_files unit)
               (<[ py "b" := SrcImage (demo_image 6 2 tt) ]>
                  {[ py "a" := SrcImage (demo_image 3 5 tt) ]})
               [Some (py "a"); None; Some (py "b"); Some (py "a")])
          + 6 * spacers [Some (py "a"); None; Some (py "b"); Some (py "a")]
  /\ length
       (resolved_images (fun _ d => d) (fun _ => true) (no_files unit)
          (<[ py "b" := SrcImage (demo_image 6 2 tt) ]>
             {[ py "a" := SrcImage (demo_image 3 5 tt) ]})
          [Some (py "a"); None; Some (py "b"); Some (py "a")])
     = names [Some (py "a"); None; Some (py "b"); Some (py "a")].
Proof.
  split; [exact demo_present_two|].
  exact (stack_dhd_height unit _ _ _ _ _ _ _ _ _ _ demo_present_two demo_stack_two).
Defined.

(** C2, as stated, fails on an image of width 0: the canvas is 1 pixel wide
    while the widest (and only) resolved image is 0 pixels wide. *)
Lemma stack_dhd_width_counterexample :
  stack_dhd (fun _ d => d) (fun _ => true) (no_files unit) [Some (py "a")]
    {[ py "a" := SrcImage (demo_image 0 5 tt) ]} (py "stack.png") 6 true
  = Ok (py "stack.png",
        {| cw := 1; ch := 5;
           layers := [(convert_RGBA (fun _ d => d) (demo_image 0 5 tt), (0, 0))] |})
  /\ width_as_specified
       (resolved_images (fun _ d => d) (fun _ => true) (no_files unit)
          {[ py "a" := SrcImage (demo_image 0 5 tt) ]} [Some (py "a")]) = 0.
Proof.
  unfold stack_dhd, resolved_images; simpl.
  rewrite lookup_singleton_eq. split; reflexivity.
Qed.

Lemma stack_dhd_width_witness :
  (6 = Z.max 1 (max_width
                  (resolved_images (fun _ d => d) (fun _ => true) (no_files unit)
                     (<[ py "b" := SrcImage (demo_image 6 2 tt) ]>
                        {[ py "a" := SrcImage (demo_image 3 5 tt) ]})
                     [Some (py "a"); None; Some (py "b"); Some (py "a")]))
   /\ 6 = width_as_specified
            (resolved_images (fun _ d => d) (fun _ => true) (no_files unit)
               (<[ py "b" := SrcImage (demo_image 6 2 tt) ]>
                  {[ py "a" := SrcImage (demo_image 3 5 tt) ]})
               [Some (py "a"); None; Some (py "b"); Some (py "a")]))
  /\ (stack_dhd (fun _ d => d) (fun _ => true) (no_files unit) [None; None] ∅
        (py "stack.png") 6 true
      = Ok (py "stack.png", {| cw := 1; ch := 12; layers := [] |})
      /\ {| cw := 1; ch := 12; layers := @nil (image unit * (Z * Z)) |}
         = {| cw := 1; ch := 6 * Z.of_nat (length [@None str; None]); layers := [] |}).
Proof.
  split.
  - destruct (stack_dhd_width unit _ _ _ _ _ _ _ _ _ _ demo_stack_two)
      as (Hmax & _ & Hspec & _).
    split; [exact Hmax|]. apply Hspec.
    rewrite demo_resolved_two. repeat constructor; discriminate.
  - assert (H : stack_dhd (fun _ d => d) (fun _ => true) (no_files unit) [None; None] ∅
                  (py "stack.png") 6 true
                = Ok (py "stack.png", {| cw := 1; ch := 12; layers := [] |})).
    { reflexivity. }
    split; [exact H|].
    destruct (stack_dhd_width unit _ _ _ _ _ _ _ _ _ _ H) as (_ & _ & _ & Hgaps).
    apply Hgaps. intros label [E|[E|[]]]; symmetry; exact E.
Defined.

(** C3, as stated, fails: without [gap_pixels] a single spacer gives a
    canvas of height 6, not 8. *)
Lemma stack_dhd_default_gap_counterexample :
  stack_dhd_call (fun _ d => d) (fun _ => true) (no_files unit) [None] ∅ None None None
  = Ok (py "stack.png", {| cw := 1; ch := 6; layers := [] |})
  /\ stack_dhd_call (fun _ d => d) (fun _ => true) (no_files unit) [None] ∅ None None None
     <> stack_dhd (fun _ d => d) (fun _ => true) (no_files unit) [None] ∅ (py "stack.png") 8 true.
Proof.
  split; [reflexivity | discriminate].
Qed.

Lemma stack_dhd_default_gap_witness :
  stack_dhd_call (fun _ d => d) (fun _ => true) (no_files unit) [None; None] ∅ None None None
  = Ok (py "stack.png", {| cw := 1; ch := 12; layers := [] |})
  /\ ch {| cw := 1; ch := 12; layers := @nil (image unit * (Z * Z)) |}
     = sum_heights
         (resolved_images (fun _ d => d) (fun _ => true) (no_files unit) ∅ [None; None])
       + 6 * spacers [None; None].
Proof.
  split; [reflexivity|].
  exact (proj1 (proj2 (stack_dhd_default_gap unit (fun _ d => d) (fun _ => true) (no_files unit)
                  [None; None] ∅ None None)) _ _ eq_refl).
Defined.

Lemma stack_dhd_skip_missing_witness :
  ({[ py "a" := SrcImage (demo_image 3 5 tt) ]} : gmap str (source unit))
    !! py "b" = None
  /\ stack_dhd (fun _ d => d) (fun _ => true) (no_files unit) [Some (py "a"); Some (py "b")]
       {[ py "a" := SrcImage (demo_image 3 5 tt) ]} (py "stack.png") 6 true
     = stack_dhd (fun _ d => d) (fun _ => true) (no_files unit) [Some (py "a")]
       {[ py "a" := SrcImage (demo_image 3 5 tt) ]} (py "stack.png") 6 true.
Proof.
  assert (H : ({[ py "a" := SrcImage (demo_image 3 5 tt) ]}
                 : gmap str (source unit)) !! py "b" = None).
  { apply lookup_singleton_ne. discriminate. }
  split; [exact H|].
  apply (stack_dhd_skip_missing unit (fun _ d => d) (fun _ => true) (no_files unit)); exact H.
Defined.

(** C5, as stated, fails when a source before the missing name cannot be
    opened: the call fails with the opening error of "a", not with
    [KeyError "b"]. *)
Lemma stack_dhd_fail_fast_counterexample :
  ({[ py "a" := SrcPath (py "missing.png") ]} : gmap str (source unit))
    !! py "b" = None
  /\ stack_dhd (fun _ d => d) (fun _ => true) (no_files unit)
       [Some (py "a"); Some (py "b")]
       {[ py "a" := SrcPath (py "missing.png") ]} (py "stack.png") 6 false
     = Raise (OSError (py "missing.png"))
  /\ stack_dhd (fun _ d => d) (fun _ => true) (no_files unit)
       [Some (py "a"); Some (py "b")]
       {[ py "a" := SrcPath (py "missing.png") ]} (py "stack.png") 6 false
     <> Raise (KeyError (py "b")).
Proof.
  assert (E : stack_dhd (fun _ d => d) (fun _ => true) (no_files unit)
                [Some (py "a"); Some (py "b")]
                {[ py "a" := SrcPath (py "missing.png") ]} (py "stack.png") 6 false
              = Raise (OSError (py "missing.png"))).
  { unfold stack_dhd. simpl pass1. rewrite lookup_singleton_eq. reflexivity. }
  split; [apply lookup_singleton_ne; discriminate|].
  split; [exact E | rewrite E; discriminate].
Qed.

Lemma stack_dhd_fail_fast_witness :
  stack_dhd (fun _ d => d) (fun _ => true) (no_files unit) [Some (py "a"); Some (py "b"); None]
    {[ py "a" := SrcImage (demo_image 3 5 tt) ]} (py "stack.png") 6 false
  = Raise (KeyError (py "b")).
Proof.
  refine (proj2 (proj2 (stack_dhd_fail_fast unit (fun _ d => d) (fun _ => true) (no_files unit)
            [Some (py "a")] (py "b") [None]
            {[ py "a" := SrcImage (demo_image 3 5 tt) ]}
            (py "stack.png") 6 _ _) _)).
  - apply lookup_singleton_ne. discriminate.
  - intros name [H|[]]. injection H as <-.
    rewrite lookup_singleton_eq. eexists; reflexivity.
  - intros name src [H|[]]. injection H as <-.
    rewrite lookup_singleton_eq. intros H; injection H as <-.
    eexists; reflexivity.
Defined.


Lemma demo_nfkd_ascii (t : str) : forallb is_ascii t = true -> demo_nfkd t = t.
Proof.
  induction t as [|c t IH]; simpl; [reflexivity|].
  intros H. apply andb_true_iff in H as [Hc H].
  unfold demo_nfkd in *. simpl. rewrite (IH H).
  destruct (c =? 233)%N eqn:E; [|reflexivity].
  apply N.eqb_eq in E. subst c. discriminate.
Qed.

Lemma slugify_spec_witness :
  slugify demo_nfkd (py " Bit  Sub - X/O ") = py "bit_sub_xo"
  /\ lower (py "Bit Sub") = py "bit sub"
  /\ re_sub_runs separator (py "_") false (py "-a - b--c ") = py "_a_b_c_"
  /\ slugify demo_nfkd (py "Acracia # 1") = py "acracia_1"
  /\ slugify demo_nfkd [233%N] = py "e"
  /\ slugify demo_nfkd (py "tubing - hanger") = py "tubing_hanger".
Proof.
  destruct (slugify_spec demo_nfkd demo_nfkd_ascii) as (H1 & H2 & H3 & H4 & _ & H6 & H7).
  split; [rewrite H1; reflexivity|].
  split; [rewrite H2; reflexivity|].
  split; [rewrite H3; reflexivity|].
  split; [exact H4|]. split.
  - apply (H6 [233%N] 101%N [769%N]); reflexivity.
  - apply (H7 (py "tubing") (py " - ") (py "hanger"));
      try discriminate; reflexivity.
Defined.

Lemma create_dhd_excel_duplicate_write_witness :
  exists ws1,
    write_end_of_tailpipe Ok demo_document ∅ = Ok ws1
    /\ write_end_of_tailpipe_depth Ok demo_document ws1 = Ok ws1
    /\ ws1 !! (8, 6)%nat = Some (JInt 1500).
Proof.
  destruct (write_end_of_tailpipe Ok demo_document ∅) as [ws1|e] eqn:E;
    [|vm_compute in E; discriminate].
  exists ws1. split; [reflexivity|]. split.
  - exact (proj1 (proj2 (create_dhd_excel_duplicate_write demo_nfkd
               (fun _ => Ok demo_document) Ok (fun _ => Ok ∅))) _ _ _ E).
  - vm_compute in E. injection E as <-. reflexivity.
Defined.

Lemma make_component_dict_spec_witness :
  make_component_dict (fun _ => Ok demo_components) (py "page_1.json") false
  = Ok [(JStr (py "1"), JStr (py "Bit"))]
  /\ exists d,
       make_component_dict (fun _ => Ok demo_components) (py "page_1.json") true = Ok d
       /\ map fst d = [JStr (py "1"); JNull].
Proof.
  destruct (make_component_dict_spec (fun _ => Ok demo_components)) as [Hgen Hdemo].
  split; [apply Hdemo; reflexivity|].
  destruct (Hgen (py "page_1.json") true demo_components
              [ JObj [ (py "item_id", JStr (py "1")); (py "mapped_name", JStr (py "Bit")) ];
                JObj [ (py "item_id", JNull); (py "mapped_name", JStr (py "Sub")) ] ]
              [ (JStr (py "1"), JStr (py "Bit")); (JNull, JStr (py "Sub")) ])
    as (d & Hd & _ & Hk & _).
  - reflexivity.
  - reflexivity.
  - repeat constructor.
  - reflexivity.
  - exists d. split; [exact Hd | exact Hk].
Defined.

(** C9, as stated, fails on a directory holding "packer.png" and
    "packer.jpg": the first file has no entry of its own. *)
Lemma official_component_dict_counterexample :
  ~ covers_every_file demo_scandir (fun _ _ => true) (fun _ => []) (py "imgs").
Proof.
  intros H.
  specialize (H _ (py "packer.png") eq_refl (or_introl eq_refl)).
  vm_compute in H. discriminate.
Qed.

Lemma official_component_dict_spec_witness :
  official_component_dict demo_scandir (fun _ _ => true) (fun _ => []) (py "imgs")
    !! py "packer" = Some (py "imgs/packer.jpg").
Proof.
  apply (proj1 (official_component_dict_spec demo_scandir (fun _ _ => true)
                  (fun _ => []) (fun _ => eq_refl) (py "imgs") eq_refl eq_refl)).
  exists [py "packer.png"], (py "packer.jpg"), [py "old"].
  split; [reflexivity|]. split; [reflexivity|]. split; [reflexivity|].
  constructor; [|constructor]. vm_compute. discriminate.
Defined.

(** *** Instances of the further properties *)

Lemma demo_stack :
  stack_dhd (fun _ d => d) (fun _ => true) (no_files unit) [None; Some (py "a")]
    {[ py "a" := SrcImage (demo_image 3 5 tt) ]} (py "stack.png") 6 true
  = Ok (py "stack.png",
        {| cw := 3; ch := 11;
           layers := [(convert_RGBA (fun _ d => d) (demo_image 3 5 tt), (0, 6))] |}).
Proof.
  unfold stack_dhd. simpl pass1. rewrite lookup_singleton_eq. reflexivity.
Qed.

Lemma stack_dhd_paints_resolved_witness :
  map fst [(convert_RGBA (fun _ d => d) (demo_image 3 5 tt), (0, 6))]
  = resolved_images (fun _ d => d) (fun _ => true) (no_files unit)
      {[ py "a" := SrcImage (demo_image 3 5 tt) ]} [None; Some (py "a")].
Proof.
  exact (proj1 (stack_dhd_paints_resolved unit _ _ _ _ _ _ _ _ _ _ demo_stack)).
Defined.

Lemma stack_dhd_layers_stacked_witness :
  stacked 0 [(convert_RGBA (fun _ (d : unit) => d) (demo_image 3 5 tt), (0, 6))].
Proof.
  refine (stack_dhd_layers_stacked unit _ _ _ _ _ _ _ _ _ _ demo_stack _). lia.
Defined.

Lemma stack_dhd_paints_inside_witness :
  Forall (within 3 11)
    [(convert_RGBA (fun _ (d : unit) => d) (demo_image 3 5 tt), (0, 6))].
Proof.
  refine (stack_dhd_paints_inside unit _ _ _ _ _ _ _ _ _ _ demo_stack _). lia.
Defined.

Lemma stack_dhd_negative_height_witness :
  stack_dhd (fun _ (d : unit) => d) (fun _ => true) (no_files unit) [None] ∅ (py "stack.png") (-1) true
  = Raise ValueError.
Proof.
  refine (proj1 (stack_dhd_negative_height unit (fun _ d => d) (fun _ => true) (no_files unit)
                   [None] ∅ (py "stack.png") (-1) true _ _ _)).
  - intros name src [H|[]]. discriminate.
  - left. reflexivity.
  - reflexivity.
Defined.

Lemma stack_dhd_unreadable_witness :
  stack_dhd (fun _ (d : unit) => d) (fun _ => true) (no_files unit) [Some (py "a"); None]
    {[ py "a" := SrcPath (py "missing.png") ]} (py "stack.png") 6 true
  = Raise (OSError (py "missing.png")).
Proof.
  refine (stack_dhd_unreadable unit (fun _ d => d) (fun _ => true) (no_files unit)
            [] (py "a") (py "missing.png") [None] _ (py "stack.png") 6 true _ _ _ _).
  - intros name src [].
  - left. reflexivity.
  - apply lookup_singleton_eq.
  - reflexivity.
Defined.

Lemma stack_dhd_app_witness :
  stack_dhd (fun _ (d : unit) => d) (fun _ => true) (no_files unit) [None]
    {[ py "a" := SrcImage (demo_image 3 5 tt) ]} (py "stack.png") 6 true
  = Ok (py "stack.png", {| cw := 1; ch := 6; layers := [] |})
  /\ stack_dhd (fun _ (d : unit) => d) (fun _ => true) (no_files unit) [Some (py "a")]
       {[ py "a" := SrcImage (demo_image 3 5 tt) ]} (py "stack.png") 6 true
     = Ok (py "stack.png",
           {| cw := 3; ch := 5;
              layers := [(convert_RGBA (fun _ d => d) (demo_image 3 5 tt), (0, 0))] |})
  /\ (11 = 6 + 5
      /\ 3 = Z.max 1 3
      /\ map fst [(convert_RGBA (fun _ (d : unit) => d) (demo_image 3 5 tt), (0, 6))]
         = map fst (@nil (image unit * (Z * Z)))
           ++ map fst [(convert_RGBA (fun _ (d : unit) => d) (demo_image 3 5 tt), (0, 0))]).
Proof.
  assert (H1 : stack_dhd (fun _ (d : unit) => d) (fun _ => true) (no_files unit) [None]
                 {[ py "a" := SrcImage (demo_image 3 5 tt) ]} (py "stack.png") 6 true
               = Ok (py "stack.png", {| cw := 1; ch := 6; layers := [] |})).
  { reflexivity. }
  assert (H2 : stack_dhd (fun _ (d : unit) => d) (fun _ => true) (no_files unit)
                 [Some (py "a")]
                 {[ py "a" := SrcImage (demo_image 3 5 tt) ]} (py "stack.png") 6 true
               = Ok (py "stack.png",
                     {| cw := 3; ch := 5;
                        layers := [(convert_RGBA (fun _ d => d) (demo_image 3 5 tt),
                                    (0, 0))] |})).
  { unfold stack_dhd. simpl pass1. rewrite lookup_singleton_eq. reflexivity. }
  split; [exact H1|]. split; [exact H2|].
  exact (stack_dhd_app unit (fun _ d => d) (fun _ => true) (no_files unit)
           [None] [Some (py "a")] _ _ _ _ _ _ _ _ _ _ demo_stack H1 H2).
Defined.

Lemma stack_dhd_skip_irrelevant_witness :
  stack_dhd (fun _ d => d) (fun _ => true) (no_files unit) [None; Some (py "a")]
    {[ py "a" := SrcImage (demo_image 3 5 tt) ]} (py "stack.png") 6 true
  = stack_dhd (fun _ d => d) (fun _ => true) (no_files unit) [None; Some (py "a")]
    {[ py "a" := SrcImage (demo_image 3 5 tt) ]} (py "stack.png") 6 false.
Proof.
  apply (stack_dhd_skip_irrelevant unit). apply demo_all_present.
Defined.

Lemma slugify_idempotent_witness :
  slugify demo_nfkd (slugify demo_nfkd (py "Acracia # 1"))
  = slugify demo_nfkd (py "Acracia # 1").
Proof. exact (slugify_idempotent demo_nfkd demo_nfkd_ascii (py "Acracia # 1")). Defined.

Lemma slugify_ignores_case_witness :
  slugify demo_nfkd (lower (py "Acracia # 1")) = slugify demo_nfkd (py "Acracia # 1").
Proof.
  apply (slugify_ignores_case demo_nfkd demo_nfkd_ascii). reflexivity.
Defined.

Lemma demo_run :
  exists ws,
    create_dhd_excel demo_nfkd (fun _ => Ok demo_document) Ok (fun _ => Ok ∅)
      (py "page_1.json") (py "template.xlsx")
    = Ok (py "/content/DHD_acracia_1.xlsx", ws).
Proof.
  destruct (create_dhd_excel demo_nfkd (fun _ => Ok demo_document) Ok (fun _ => Ok ∅)
              (py "page_1.json") (py "template.xlsx")) as [[out ws]|e] eqn:E.
  - exists ws. vm_compute in E. injection E as <- _. reflexivity.
  - vm_compute in E. discriminate.
Qed.

Lemma create_dhd_excel_requires_witness :
  exists text,
    py_getitem demo_document (py "well_name") = Ok (JStr text)
    /\ py "/content/DHD_acracia_1.xlsx"
       = py "/content/DHD_" ++ slugify demo_nfkd text ++ py ".xlsx".
Proof.
  destruct demo_run as [ws H].
  destruct (create_dhd_excel_requires _ _ _ _ _ _ _ _ H)
    as (data & text & comps & depth & Hd & Hwn & _ & _ & Hout).
  injection Hd as <-. exists text. split; assumption.
Defined.

Lemma create_dhd_excel_frame_witness :
  exists ws,
    create_dhd_excel demo_nfkd (fun _ => Ok demo_document) Ok (fun _ => Ok ∅)
      (py "page_1.json") (py "template.xlsx")
    = Ok (py "/content/DHD_acracia_1.xlsx", ws)
    /\ ws !! (7, 4)%nat = None.
Proof.
  destruct demo_run as [ws H]. exists ws. split; [exact H|].
  destruct (create_dhd_excel_frame _ _ _ _ _ _ _ _ H)
    as (data & comps & n & ws0 & Hd & Hc & Hn & Hws0 & _ & Hrow).
  injection Hd as <-. injection Hws0 as <-.
  vm_compute in Hc. injection Hc as <-. injection Hn as <-.
  etransitivity; [exact (Hrow 4%nat) | reflexivity].
Defined.

Lemma create_dhd_excel_tailpipe_witness :
  exists ws,
    create_dhd_excel demo_nfkd (fun _ => Ok demo_document) Ok (fun _ => Ok ∅)
      (py "page_1.json") (py "template.xlsx")
    = Ok (py "/content/DHD_acracia_1.xlsx", ws)
    /\ ws !! (8, 4)%nat = Some (JStr (py "END OF TAILPIPE"))
    /\ ws !! (8, 6)%nat = Some (JInt 1500).
Proof.
  destruct demo_run as [ws H]. exists ws. split; [exact H|].
  destruct (create_dhd_excel_tailpipe _ _ _ _ _ _ _ _ H)
    as (data & comps & n & depth & ws0 & label & stored
        & Hd & Hc & Hn & Hdepth & Hws0 & Hl & Hl' & Hs & Hs').
  injection Hd as <-. injection Hws0 as <-.
  vm_compute in Hc. injection Hc as <-. injection Hn as <-.
  vm_compute in Hdepth. injection Hdepth as <-.
  injection Hl as <-. injection Hs as <-.
  split; assumption.
Defined.

Lemma create_dhd_excel_header_witness :
  exists ws,
    create_dhd_excel demo_nfkd (fun _ => Ok demo_document) Ok (fun _ => Ok ∅)
      (py "page_1.json") (py "template.xlsx")
    = Ok (py "/content/DHD_acracia_1.xlsx", ws)
    /\ ws !! (2, 4)%nat = Some (JStr (py "Acracia # 1"))
    /\ ws !! (5, 5)%nat = Some (JStr [])
    /\ ws !! (5, 6)%nat = Some (JStr (py "m")).
Proof.
  destruct demo_run as [ws H]. exists ws. split; [exact H|].
  destruct (create_dhd_excel_header _ _ _ _ _ _ _ _ H)
    as (data & text & stored & Hd & Hwn & Hb & Hcell & Hunits).
  injection Hd as <-. vm_compute in Hwn. injection Hwn as <-.
  injection Hb as <-. split; [exact Hcell|]. split.
  - destruct (Hunits (py "length_unit") (5, 5)%nat) as (v & st & Hv & Hs & Hc);
      [left; reflexivity|].
    vm_compute in Hv. injection Hv as <-. injection Hs as <-. exact Hc.
  - destruct (Hunits (py "depth_unit") (5, 6)%nat) as (v & st & Hv & Hs & Hc);
      [right; left; reflexivity|].
    vm_compute in Hv. injection Hv as <-. injection Hs as <-. exact Hc.
Defined.

Lemma create_dhd_excel_rows_witness :
  exists ws,
    create_dhd_excel demo_nfkd (fun _ => Ok demo_document) Ok (fun _ => Ok ∅)
      (py "page_1.json") (py "template.xlsx")
    = Ok (py "/content/DHD_acracia_1.xlsx", ws)
    /\ ws !! (6, 4)%nat = Some (JStr (py "Packer"))
    /\ ws !! (6, 5)%nat = Some JNull.
Proof.
  destruct demo_run as [ws H]. exists ws. split; [exact H|].
  destruct (create_dhd_excel_rows _ _ _ _ _ _ _ _ H)
    as (data & comps & rows & ws0 & Hd & Hc & Hr & Hws0 & Hrows).
  injection Hd as <-. injection Hws0 as <-.
  vm_compute in Hc. injection Hc as <-. injection Hr as <-.
  split.
  - destruct (Hrows 0%nat _ 4%nat (py "name") eq_refl) as (v & st & Hv & Hs & Hcell);
      [right; left; reflexivity|].
    vm_compute in Hv. injection Hv as <-. injection Hs as <-. exact Hcell.
  - destruct (Hrows 0%nat _ 5%nat (py "length") eq_refl) as (v & st & Hv & Hs & Hcell);
      [right; right; left; reflexivity|].
    vm_compute in Hv. injection Hv as <-. injection Hs as <-. exact Hcell.
Defined.

Lemma make_component_dict_keys_witness :
  keys_distinct [JStr (py "1"); JNull] = true.
Proof.
  exact (proj1 (make_component_dict_keys (fun _ => Ok demo_components)
                  (py "page_1.json") true
                  [(JStr (py "1"), JStr (py "Bit")); (JNull, JStr (py "Sub"))]
                  eq_refl)).
Defined.

Lemma make_component_dict_keep_none_witness :
  make_component_dict (fun _ => Ok demo_components) (py "page_1.json") false
  = Ok [(JStr (py "1"), JStr (py "Bit"))].
Proof.
  exact (make_component_dict_keep_none (fun _ => Ok demo_components)
           (py "page_1.json")
           [(JStr (py "1"), JStr (py "Bit")); (JNull, JStr (py "Sub"))] eq_refl).
Defined.

Lemma make_component_dict_missing_fields_witness :
  make_component_dict (fun _ => Ok demo_incomplete) (py "page_1.json") true
  = Raise (KeyError (py "mapped_name"))
  /\ make_component_dict (fun _ => Ok demo_incomplete) (py "page_1.json") false
     = Ok [(JStr (py "1"), JStr (py "Sub"))].
Proof.
  destruct (make_component_dict_missing_fields (fun _ => Ok demo_incomplete)
              (py "page_1.json") demo_incomplete
              [ JObj [ (py "item_id", JStr (py "1")); (py "mapped_name", JStr (py "Bit")) ] ]
              [ (JStr (py "1"), JStr (py "Bit")) ]
              [ (py "item_id", JNull) ]
              [ JObj [ (py "item_id", JStr (py "1")); (py "mapped_name", JStr (py "Sub")) ] ]
              [ (JStr (py "1"), JStr (py "Sub")) ]
              eq_refl eq_refl) as [_ H].
  - repeat constructor.
  - reflexivity.
  - destruct (H eq_refl eq_refl) as [H1 H2]. split; [exact H1|].
    apply H2; [repeat constructor | reflexivity].
Defined.

Lemma component_output_spec_witness :
  exists out,
    component_output (fun _ => Ok demo_components) (py "page_1.json") = Ok out
    /\ out = [JStr (py "Bit"); JStr (py "Sub")].
Proof.
  destruct (component_output_spec (fun _ => Ok demo_components) (py "page_1.json")
              demo_components
              [ JObj [ (py "item_id", JStr (py "1")); (py "mapped_name", JStr (py "Bit")) ];
                JObj [ (py "item_id", JNull); (py "mapped_name", JStr (py "Sub")) ] ]
              [ (JStr (py "1"), JStr (py "Bit")); (JNull, JStr (py "Sub")) ]
              eq_refl eq_refl) as (out & Ho & _ & Hd).
  - repeat constructor.
  - reflexivity.
  - exists out. split; [exact Ho | apply Hd; reflexivity].
Defined.

Lemma official_component_dict_round_trip_witness :
  fst (os_path_splitext (os_path_basename (py "imgs/packer.jpg"))) = py "packer".
Proof.
  exact (proj1 (official_component_dict_round_trip demo_scandir (fun _ _ => true)
                  (fun _ => []) (fun _ => eq_refl) (py "imgs") (py "packer")
                  (py "imgs/packer.jpg") eq_refl eq_refl eq_refl)).
Defined.

Lemma official_component_dict_trailing_slash_witness :
  official_component_dict demo_scandir (fun _ _ => true) (fun _ => []) (py "imgs/")
  = official_component_dict demo_scandir (fun _ _ => true) (fun _ => []) (py "imgs").
Proof.
  exact (official_component_dict_trailing_slash demo_scandir (fun _ _ => true)
           (fun _ => []) (py "img") 115%N eq_refl).
Defined.



